(** * wikiplum: a static site generator and its frontmatter API

    A shallow embedding of the three Go programs of the repository:

    - the site builder ([Site]: [outputPath], [mdLinkToHTML],
      [renderMarkdown], [generateSidebar], [buildPages], [copyFile],
      [copyStatic], [mustLoadTemplates], [main]),
    - the remote-fetch frontmatter handler ([Remote], functions/api.go),
    - the local-read frontmatter handler ([Local]).

    Go strings and byte slices are byte sequences and are modelled by
    [string]; Go's [map[string]string] is a [gmap string string] under an
    [option] ([None] is the nil map); an [error] is identified with its
    message and a nil-able error is an [option error].

    The functions of the Go standard library that the programs call
    ([strings], [path/filepath], [net/http]) are modelled for Unix paths.
    What lies outside the repository and is not a plain function of its
    input (the file system, the network, the YAML, JSON, markdown and
    template engines) is a field of a type class, so that every theorem
    holds for all behaviours of these capabilities. *)

From Stdlib Require Import Ascii ZArith Lia.
From stdpp Require Import gmap strings list sorting.

(** ** Outcomes and errors *)

Definition error := string.

(** A Go call either returns or panics (index out of range). *)
Inductive outcome (A : Type) : Type :=
  | Returns (a : A)
  | Panics.
Arguments Returns {A} a.
Arguments Panics {A}.

(** ** Byte strings *)

Fixpoint takeS (n : nat) (s : string) : string :=
  match n, s with
  | S n', String c t => String c (takeS n' t)
  | _, _ => ""
  end.

Fixpoint dropS (n : nat) (s : string) : string :=
  match n, s with
  | S n', String _ t => dropS n' t
  | _, _ => s
  end.

Definition isEmpty (s : string) : bool :=
  match s with "" => true | _ => false end.

(** ** External capabilities shared by the programs *)

Class GoRuntime := {
  (** [strings.TrimFunc(s, unicode.IsSpace)], the slow path of [TrimSpace]. *)
  unicode_TrimSpace : string → string;
  (** [strings.TrimRightFunc(s, unicode.IsSpace)]. *)
  unicode_TrimRightSpace : string → string;
  (** [yaml.Unmarshal(data, &fm)] on a nil [fm]: the map left in [fm] and
      the error returned. *)
  yaml_Unmarshal : string → option (gmap string string) * option error;
  (** The JSON encoding of a string, quotes included. *)
  json_String : string → string;
}.

(** ** Package strings *)

Module strings.

Definition RuneSelf : N := 128.

(** The [asciiSpace] table: tab, newline, vertical tab, form feed,
    carriage return and space. *)
Definition asciiSpace (c : ascii) : bool :=
  match c with
  | "009" | "010" | "011" | "012" | "013" | " " => true
  | _ => false
  end%char.

Fixpoint HasPrefix (s prefix : string) {struct prefix} : bool :=
  match prefix, s with
  | "", _ => true
  | String _ _, "" => false
  | String p ps, String c cs => if Ascii.eqb c p then HasPrefix cs ps else false
  end.

Definition HasSuffix (s suffix : string) : bool :=
  (String.length suffix <=? String.length s)%nat &&
  String.eqb (dropS (String.length s - String.length suffix) s) suffix.

Definition TrimPrefix (s prefix : string) : string :=
  if HasPrefix s prefix then dropS (String.length prefix) s else s.

Definition TrimSuffix (s suffix : string) : string :=
  if HasSuffix s suffix then takeS (String.length s - String.length suffix) s
  else s.

(** [Index] returns the position of the first instance of [substr], [None]
    standing for Go's -1. *)
Fixpoint Index (s substr : string) : option nat :=
  if HasPrefix s substr then Some 0
  else match s with
       | "" => None
       | String _ t => S <$> Index t substr
       end.

Definition Contains (s substr : string) : bool :=
  match Index s substr with Some _ => true | None => false end.

(** [Count] for a non-empty [substr]: the loop that repeatedly jumps behind
    the next instance. Every round consumes at least one byte, so
    [String.length s] rounds are enough. (With an empty [substr] Go counts
    runes; the programs never do that.) *)
Fixpoint countLoop (fuel : nat) (s substr : string) : nat :=
  match fuel with
  | 0 => 0
  | S fuel' =>
      match Index s substr with
      | None => 0
      | Some i => S (countLoop fuel' (dropS (i + String.length substr) s) substr)
      end
  end.

Definition Count (s substr : string) : nat :=
  countLoop (String.length s) s substr.

Fixpoint Join (elems : list string) (sep : string) : string :=
  match elems with
  | [] => ""
  | [e] => e
  | e :: rest => e +:+ sep +:+ Join rest sep
  end.

(** The loop of [genSplit]: at most [k] cuts, the rest is the last part. *)
Fixpoint splitLoop (k : nat) (s sep : string) : list string :=
  match k with
  | 0 => [s]
  | S k' =>
      match Index s sep with
      | None => [s]
      | Some m => takeS m s :: splitLoop k' (dropS (m + String.length sep) s) sep
      end
  end.

(** [SplitN] for a non-empty separator ([genSplit] with [sepSave = 0]). *)
Definition SplitN (s sep : string) (n : Z) : list string :=
  if (n =? 0)%Z then []
  else
    let n1 := if (n <? 0)%Z then S (Count s sep) else Z.to_nat n in
    let n2 := if (S (String.length s) <? n1)%nat then S (String.length s) else n1 in
    splitLoop (n2 - 1) s sep.

(** The loop of [Replace]: [n] replacements, each at the next instance. *)
Fixpoint replaceLoop (n : nat) (s old new : string) : string :=
  match n with
  | 0 => s
  | S n' =>
      match Index s old with
      | None => s
      | Some j =>
          takeS j s +:+ new +:+
          replaceLoop n' (dropS (j + String.length old) s) old new
      end
  end.

(** [Replace] for a non-empty [old]; a negative [n] lifts the limit. *)
Definition Replace (s old new : string) (n : Z) : string :=
  if String.eqb old new || (n =? 0)%Z then s
  else
    let m := Count s old in
    if (m =? 0)%nat then s
    else
      let n' := if (n <? 0)%Z || (Z.of_nat m <? n)%Z then m else Z.to_nat n in
      replaceLoop n' s old new.

Definition ReplaceAll (s old new : string) : string := Replace s old new (-1).

Section TrimSpace.
Context {rt : GoRuntime}.

(** First loop of [TrimSpace]: skip ASCII space from the left; a byte
    outside ASCII hands the rest over to the Unicode-aware trim. *)
Fixpoint trimStart (s : string) : string + string :=
  match s with
  | "" => inl ""
  | String c t =>
      if (RuneSelf <=? N_of_ascii c)%N then inr (unicode_TrimSpace s)
      else if asciiSpace c then trimStart t
      else inl s
  end.

(** Second loop, on the reversed rest: skip ASCII space from the right. *)
Fixpoint trimStop (r : string) : string :=
  match r with
  | "" => ""
  | String c t =>
      if (RuneSelf <=? N_of_ascii c)%N then unicode_TrimRightSpace (String.rev r)
      else if asciiSpace c then trimStop t
      else String.rev r
  end.

Definition TrimSpace (s : string) : string :=
  match trimStart s with
  | inr res => res
  | inl rest => trimStop (String.rev rest)
  end.
End TrimSpace.

End strings.

(** ** net/http and encoding/json *)

Record ResponseWriter := {
  Header : gmap string string;
  Status : option nat;
  Body : string;
}.

Definition newResponseWriter : ResponseWriter :=
  {| Header := ∅; Status := None; Body := "" |}.

Definition Header_Set (k v : string) (w : ResponseWriter) : ResponseWriter :=
  {| Header := <[k := v]> (Header w); Status := Status w; Body := Body w |}.

Definition Header_Del (k : string) (w : ResponseWriter) : ResponseWriter :=
  {| Header := delete k (Header w); Status := Status w; Body := Body w |}.

Definition WriteHeader (code : nat) (w : ResponseWriter) : ResponseWriter :=
  match Status w with
  | Some _ => w
  | None => {| Header := Header w; Status := Some code; Body := Body w |}
  end.

(** The first [Write] sends status 200 when none was sent. *)
Definition Write (data : string) (w : ResponseWriter) : ResponseWriter :=
  let w' := WriteHeader 200 w in
  {| Header := Header w'; Status := Status w'; Body := Body w' +:+ data |}.

Definition newline : string := String "010" "".

(** [http.Error]: plain-text headers, the status code, the message and a
    line break. *)
Definition http_Error (w : ResponseWriter) (msg : string) (code : nat)
    : ResponseWriter :=
  Write (msg +:+ newline)
    (WriteHeader code
       (Header_Set "X-Content-Type-Options" "nosniff"
          (Header_Set "Content-Type" "text/plain; charset=utf-8"
             (Header_Del "Content-Length" w)))).

Record Request := {
  URL_Path : string;
  URL_Query : gmap string (list string);
}.

(** [url.Values.Get]: the first value of the key, or the empty string. *)
Definition Values_Get (q : gmap string (list string)) (key : string) : string :=
  match q !! key with
  | Some (v :: _) => v
  | _ => ""
  end.

Section Json.
Context {rt : GoRuntime}.

Definition keyLe (a b : string * string) : Prop := String.le a.1 b.1.

(** [json.Marshal] of a [map[string]string]: [null] for the nil map,
    otherwise an object with the keys in sorted order. *)
Definition json_Marshal (fm : option (gmap string string)) : string :=
  match fm with
  | None => "null"
  | Some m =>
      "{" +:+
      strings.Join (map (λ kv, json_String kv.1 +:+ ":" +:+ json_String kv.2)
                (merge_sort keyLe (map_to_list m))) "," +:+
      "}"
  end.

(** [json.NewEncoder(w).Encode(fm)]: the encoding and a line break. *)
Definition Encode (w : ResponseWriter) (fm : option (gmap string string))
    : ResponseWriter :=
  Write (json_Marshal fm +:+ newline) w.
End Json.

(** ** The remote-fetch frontmatter handler (functions/api.go) *)

Module Remote.

Definition REPO_URL_prefix : string :=
  "https://raw.githubusercontent.com/starillume/wikiplum/refs/heads/".
Definition USER_AGENT : string :=
  "Mozilla/5.0 (Macintosh; Intel Mac OS X 10.15; rv:109.0) Gecko/20100101 Firefox/111.0".
Definition FILE_NOT_FOUND_ERROR_MESSAGE : string := "file not found".
Definition StatusNotFound : nat := 404.

(** [fmt.Sprintf(REPO_URL, branch, path)]. *)
Definition Sprintf_REPO_URL (branch path : string) : string :=
  REPO_URL_prefix +:+ branch +:+ "/content/" +:+ path.

(** The network, as the handler sees it. *)
Class Net := {
  (** [fetch.NewRequest(ctx, method, url, nil)]: the error, if any. *)
  fetch_NewRequest : string → string → option error;
  (** [cli.Do] on a request to [url] carrying the given user agent: an
      error, or the status code and the bytes [io.Copy] got from the body. *)
  fetch_Do : string → string → error + (nat * string);
}.

Section Handler.
Context {rt : GoRuntime} {net : Net}.

Definition fetchWikiPage (path branch : string) : error + string :=
  let url := Sprintf_REPO_URL branch path in
  match fetch_NewRequest "GET" url with
  | Some err => inl err
  | None =>
      match fetch_Do url USER_AGENT with
      | inl err => inl err
      | inr (StatusCode, body) =>
          if (StatusCode =? StatusNotFound)%nat
          then inl FILE_NOT_FOUND_ERROR_MESSAGE
          else inr body
      end
  end.

Definition parseFrontmatter (md : string)
    : outcome (option (gmap string string)) :=
  let content := strings.TrimSpace md in
  if negb (strings.HasPrefix content "---") then Returns None
  else
    let parts := strings.SplitN content "---" 3 in
    if (length parts <? 3)%nat then Returns None
    else
      match parts !! 1%nat with
      | None => Panics
      | Some part1 =>
          let yamlPart := strings.TrimSpace part1 in
          match yaml_Unmarshal yamlPart with
          | (_, Some _) => Returns None
          | (fm, None) => Returns fm
          end
      end.

(** The handler returns the response written to [w] and what it printed
    on standard output. *)
Definition apiHandler (w : ResponseWriter) (r : Request)
    : outcome (ResponseWriter * string) :=
  let path := strings.TrimPrefix (URL_Path r) "/api/" in
  if isEmpty path then Returns (http_Error w "not found" 404, "")
  else
    let branch := Values_Get (URL_Query r) "branch" in
    let branch := if isEmpty branch then "main" else branch in
    let mdPath := path +:+ ".md" in
    match fetchWikiPage mdPath branch with
    | inl err =>
        if String.eqb err FILE_NOT_FOUND_ERROR_MESSAGE
        then Returns (http_Error w FILE_NOT_FOUND_ERROR_MESSAGE 404, "")
        else Returns (http_Error w "internal error" 500,
                      "error: " +:+ err +:+ newline)
    | inr data =>
        match parseFrontmatter data with
        | Panics => Panics
        | Returns fm =>
            let fm := match fm with None => Some ∅ | Some _ => fm end in
            Returns (Encode (Header_Set "Content-Type" "application/json" w) fm, "")
        end
    end.
End Handler.

End Remote.

(** ** The local-read frontmatter handler *)

Module Local.

(** The local file system, as the handler sees it. *)
Class Disk := {
  os_ReadFile : string → error + string;
}.

Section Handler.
Context {rt : GoRuntime} {disk : Disk}.

Definition parseFrontmatter (md : string)
    : outcome (option (gmap string string)) :=
  let content := strings.TrimSpace md in
  if negb (strings.HasPrefix content "---") then Returns None
  else
    let parts := strings.SplitN content "---" 3 in
    if (length parts <? 3)%nat then Returns None
    else
      match parts !! 1%nat with
      | None => Panics
      | Some part1 =>
          let yamlPart := strings.TrimSpace part1 in
          match yaml_Unmarshal yamlPart with
          | (_, Some _) => Returns None
          | (fm, None) => Returns fm
          end
      end.

Definition apiHandler (w : ResponseWriter) (r : Request)
    : outcome (ResponseWriter * string) :=
  let path := strings.TrimPrefix (URL_Path r) "/api/" in
  if isEmpty path then Returns (http_Error w "not found" 404, "")
  else
    let mdPath := "content/" +:+ path +:+ ".md" in
    match os_ReadFile mdPath with
    | inl _ => Returns (http_Error w "file not found" 404, "")
    | inr data =>
        match parseFrontmatter data with
        | Panics => Panics
        | Returns fm =>
            let fm := match fm with None => Some ∅ | Some _ => fm end in
            Returns (Encode (Header_Set "Content-Type" "application/json" w) fm, "")
        end
    end.
End Handler.

End Local.

(** ** Package path/filepath (Unix) *)

Module filepath.

Definition isSlash (c : ascii) : bool := Ascii.eqb c "/".

(** [strings.Split(s, "/")]: the elements between separators. *)
Fixpoint splitSlash (s : string) : list string :=
  match s with
  | "" => [""]
  | String c t =>
      if isSlash c then "" :: splitSlash t
      else match splitSlash t with
           | h :: r => String c h :: r
           | [] => [String c ""]
           end
  end.

(** One round of [Clean] on the element [elem], [out] holding the elements
    written so far, last one first: empty and [.] elements are dropped; a
    [..] removes the last real element when there is one, and is kept in
    front of a path that is not rooted. *)
Definition cleanStep (rooted : bool) (out : list string) (elem : string)
    : list string :=
  if String.eqb elem "" || String.eqb elem "." then out
  else if String.eqb elem ".." then
    let canBacktrack :=
      match out with
      | top :: _ => negb (String.eqb top "..")
      | [] => false
      end in
    if canBacktrack then tail out
    else if rooted then out
    else ".." :: out
  else elem :: out.

Definition Clean (path : string) : string :=
  if isEmpty path then "."
  else
    let rooted := strings.HasPrefix path "/" in
    let out := fold_left (cleanStep rooted) (splitSlash path) [] in
    let body := strings.Join (rev out) "/" in
    if rooted then "/" +:+ body
    else if isEmpty body then "." else body.

(** [filepath.Join]: the elements from the first non-empty one on, joined
    by separators and cleaned; the empty string when there is none. *)
Fixpoint Join (elem : list string) : string :=
  match elem with
  | [] => ""
  | e :: rest =>
      if isEmpty e then Join rest else Clean (strings.Join elem "/")
  end.

(** The bytes of [s] up to the first separator, and those behind it. *)
Fixpoint cutSlash (s : string) : string * string :=
  match s with
  | "" => ("", "")
  | String c t =>
      if isSlash c then ("", t)
      else let '(h, r) := cutSlash t in (String c h, r)
  end.

(** The loop of [Rel] on [base[b0:]] and [targ[t0:]]: it stops in front of
    the first elements that differ, or when one side is used up, and
    returns [base[b0:bi]] with what is left of both. Each round takes at
    least one byte off the base, which bounds the rounds by [fuel]. *)
Fixpoint relLoop (fuel : nat) (bs ts : string) : string * string * string :=
  match fuel with
  | 0 => ("", bs, ts)
  | S fuel' =>
      if isEmpty bs || isEmpty ts then ("", bs, ts)
      else
        let '(belem, brest) := cutSlash bs in
        let '(telem, trest) := cutSlash ts in
        if negb (String.eqb telem belem) then (belem, bs, ts)
        else relLoop fuel' brest trest
  end.

Fixpoint dotdots (seps : nat) : string :=
  match seps with
  | 0 => ""
  | S n => "/.." +:+ dotdots n
  end.

Definition Rel (basepath targpath : string) : string * option error :=
  let cant :=
    ("", Some ("Rel: can't make " +:+ targpath +:+ " relative to " +:+ basepath)) in
  let base := Clean basepath in
  let targ := Clean targpath in
  if String.eqb targ base then (".", None)
  else
    let base := if String.eqb base "." then "" else base in
    let baseSlashed := strings.HasPrefix base "/" in
    let targSlashed := strings.HasPrefix targ "/" in
    if negb (Bool.eqb baseSlashed targSlashed) then cant
    else
      let '(belem, bs, ts) := relLoop (S (String.length base)) base targ in
      if String.eqb belem ".." then cant
      else if negb (isEmpty bs) then
        let seps := strings.Count bs "/" in
        (".." +:+ dotdots seps +:+ (if isEmpty ts then "" else "/" +:+ ts), None)
      else (ts, None).

Fixpoint dropWhile (f : ascii → bool) (s : string) : string :=
  match s with
  | "" => ""
  | String c t => if f c then dropWhile f t else s
  end.

Fixpoint takeWhile (f : ascii → bool) (s : string) : string :=
  match s with
  | "" => ""
  | String c t => if f c then String c (takeWhile f t) else ""
  end.

(** [Dir]: all but the last element, cleaned. *)
Definition Dir (path : string) : string :=
  Clean (String.rev (dropWhile (λ c, negb (isSlash c)) (String.rev path))).

(** [Base]: the last element, trailing separators removed before. *)
Definition Base (path : string) : string :=
  if isEmpty path then "."
  else
    let stripped := dropWhile isSlash (String.rev path) in
    let last := String.rev (takeWhile (λ c, negb (isSlash c)) stripped) in
    if isEmpty last then "/" else last.

(** *** Walking a file tree *)

(** What [Lstat] and [ReadDir] report under a root: a node is a directory
    with its entries in the order [ReadDir] lists them (sorted by name)
    and the error [ReadDir] ended with, if any, or anything else. *)
#[local] Unset Elimination Schemes.
Inductive Tree : Type :=
  | File
  | Directory (readErr : option error) (entries : list (string * Tree)).
#[local] Set Elimination Schemes.

Record DirEntry := {
  Name : string;
  IsDir : bool;
}.

(** The two ways [WalkDir] calls its function: with an entry and a nil
    error, or with an error ([d] is nil when [Lstat] on the root failed). *)
Inductive visit : Type :=
  | Visit (d : DirEntry)
  | VisitErr (d : option DirEntry) (err : error).

Definition isDirectory (t : Tree) : bool :=
  match t with File => false | Directory _ _ => true end.

Section Walk.
Context {St : Type}.
Variable fn : string → visit → St → St * option error.

(** [walkDir]: the function is called on the node, then a second time when
    reading the directory failed, then the walk descends into the entries.
    The first error the function returns ends the walk. (The functions of
    this repository return the errors they receive or those of the
    operating system, never [SkipDir] or [SkipAll].) *)
Fixpoint walkDir (path name : string) (t : Tree) (st : St) {struct t}
    : St * option error :=
  let d := {| Name := name; IsDir := isDirectory t |} in
  match fn path (Visit d) st with
  | (st1, Some err) => (st1, Some err)
  | (st1, None) =>
      match t with
      | File => (st1, None)
      | Directory readErr dirs =>
          let '(st2, err2) :=
            match readErr with
            | Some e => fn path (VisitErr (Some d) e) st1
            | None => (st1, None)
            end in
          match err2 with
          | Some err => (st2, Some err)
          | None =>
              (fix loop (ds : list (string * Tree)) (s : St) : St * option error :=
                 match ds with
                 | [] => (s, None)
                 | (name1, t1) :: rest =>
                     match walkDir (Join [path; name1]) name1 t1 s with
                     | (s', Some err) => (s', Some err)
                     | (s', None) => loop rest s'
                     end
                 end) dirs st2
          end
      end
  end.

Definition WalkDir (lstat : error + Tree) (root : string) (st : St)
    : St * option error :=
  match lstat with
  | inl err => fn root (VisitErr None err) st
  | inr t => walkDir root (Base root) t st
  end.
End Walk.

(** [filepath.Walk], the older walk: it has no directory entries to pass
    on, so it calls [Lstat] on every name a directory lists, and [info]
    ([Name] and [IsDir] of it) takes the place of the entry. A directory
    is read before the function is called on it, so the function is called
    once, with the error of the reading if there is one; whatever it
    returns then ends the walk of this directory. When [Lstat] on a name
    fails ([lstatErr]) the function is called without [info], and an error
    it returns ends the walk. *)
Section LstatWalk.
Context {St : Type}.
Variable lstatErr : string → option error.
Variable fn : string → visit → St → St * option error.

Fixpoint walk (path name : string) (t : Tree) (st : St) {struct t}
    : St * option error :=
  let info := {| Name := name; IsDir := isDirectory t |} in
  match t with
  | File => fn path (Visit info) st
  | Directory readErr names =>
      match readErr with
      | Some err => fn path (VisitErr (Some info) err) st
      | None =>
          match fn path (Visit info) st with
          | (st1, Some err1) => (st1, Some err1)
          | (st1, None) =>
              (fix loop (ds : list (string * Tree)) (s : St) : St * option error :=
                 match ds with
                 | [] => (s, None)
                 | (name1, t1) :: rest =>
                     let filename := Join [path; name1] in
                     match lstatErr filename with
                     | Some err =>
                         match fn filename (VisitErr None err) s with
                         | (s', Some err') => (s', Some err')
                         | (s', None) => loop rest s'
                         end
                     | None =>
                         match walk filename name1 t1 s with
                         | (s', Some err') => (s', Some err')
                         | (s', None) => loop rest s'
                         end
                     end
                 end) names st1
          end
      end
  end.

Definition Walk (lstat : error + Tree) (root : string) (st : St)
    : St * option error :=
  match lstat with
  | inl err => fn root (VisitErr None err) st
  | inr t => walk root (Base root) t st
  end.
End LstatWalk.

End filepath.

(** ** The site builder *)

Module Site.

Import filepath.

Definition ContentPath : string := "content".
Definition BuildPath : string := "build".
Definition TemplatesPath : string := "templates".
Definition BaseTemplate : string := "base.html".
Definition PageTemplate : string := "page.html".
Definition RootPage : string := "index".

Record NavItem := {
  NavTitle : string;
  Link : string;
}.

Record PageData := {
  Title : string;
  HTML : string;
  Sidebar : list NavItem;
  PageRel : string;
}.

(** The operating system and the two engines, as the builder sees them. *)
Class World := {
  (** What a walk from the given root finds. *)
  os_Tree : string → error + Tree;
  os_MkdirAll : string → option error;
  os_ReadFile : string → error + string;
  os_Create : string → option error;
  (** [goldmark.Convert]: the HTML, or an error. *)
  goldmark_Convert : string → error + string;
  (** [tmpl.ExecuteTemplate(f, name, data)]: the bytes written to [f] and
      the error returned. *)
  ExecuteTemplate : string → PageData → string * option error;
}.

Section Builder.
Context {world : World}.

Definition outputPath (mdPath : string) : string :=
  let rel := (Rel ContentPath mdPath).1 in
  let rel := strings.TrimSuffix rel ".md" in
  Join [BuildPath; rel +:+ ".html"].

Definition mdLinkToHTML (md : string) : string :=
  strings.ReplaceAll md ".md" ".html".

Definition renderMarkdown (mdPath : string) : error + string :=
  match os_ReadFile mdPath with
  | inl err => inl err
  | inr md => goldmark_Convert (mdLinkToHTML md)
  end.

(** The files of the build tree, in the order they were created, each with
    the bytes written to it. *)
Definition Files : Type := list (string * string).

Definition writePage (outPath : string) (data : PageData) (fs : Files)
    : Files * option error :=
  match os_Create outPath with
  | Some err => (fs, Some err)
  | None =>
      let '(out, err) := ExecuteTemplate BaseTemplate data in
      (fs ++ [(outPath, out)], err)
  end.

(** The function [generateSidebar] walks with; the state is [items]. *)
Definition sidebarFn (root currentPath : string)
    (path : string) (v : visit) (items : list NavItem)
    : list NavItem * option error :=
  match v with
  | VisitErr _ err => (items, Some err)
  | Visit d =>
      if IsDir d || strings.Contains path RootPage
         || negb (strings.HasSuffix path ".md")
      then (items, None)
      else
        let relRoot := (Rel (Dir currentPath) root).1 in
        let rel := (Rel root path).1 in
        let link := if String.eqb relRoot "." then rel else Join [relRoot; rel] in
        let link := strings.TrimSuffix link ".md" in
        (items ++ [{| NavTitle := Base link; Link := link +:+ ".html" |}], None)
  end.

Definition generateSidebar (root currentPath : string) : list NavItem :=
  (WalkDir (sidebarFn root currentPath) (os_Tree root) root []).1.

(** The function [buildPages] walks with; the state is the build tree. *)
Definition buildFn (path : string) (v : visit) (fs : Files)
    : Files * option error :=
  match v with
  | VisitErr _ err => (fs, Some err)
  | Visit d =>
      if IsDir d || negb (strings.HasSuffix path ".md") then (fs, None)
      else
        let outPath := outputPath path in
        match os_MkdirAll (Dir outPath) with
        | Some err => (fs, Some err)
        | None =>
            match renderMarkdown path with
            | inl err => (fs, Some err)
            | inr html =>
                match Rel (Dir path) ContentPath with
                | (_, Some err) => (fs, Some err)
                | (rel, None) =>
                    let data :=
                      {| Title := Base (strings.TrimSuffix path ".md");
                         HTML := html;
                         Sidebar := generateSidebar ContentPath path;
                         PageRel := rel |} in
                    writePage outPath data fs
                end
            end
        end
  end.

Definition buildPages (fs : Files) : Files * option error :=
  WalkDir buildFn (os_Tree ContentPath) ContentPath fs.

End Builder.

(** What [copyStatic] and [main] need of the operating system and of the
    template engine beyond that. *)
Class Assets := {
  (** The error of [Lstat] on a name that a directory listed, if any. *)
  os_Lstat : string → option error;
  (** [os.Open]: an error, or the file opened for reading, given by the
      bytes that reading it yields and the error that ends the reading
      when that is not the end of the file. *)
  os_Open : string → error + (string * option error);
  (** Writing the given bytes to the created file of the given name: the
      number of bytes written and the error, when it fails. *)
  file_Write : string → string → option (nat * error);
  (** [template.ParseFiles]: the error, if any. (The template set itself
      is the [ExecuteTemplate] of the world.) *)
  template_ParseFiles : list string → option error;
}.

Section Program.
Context {world : World} {assets : Assets}.

(** [io.Copy(out, in)]: the bytes that reached [out] and the first error
    met; no error means that all bytes up to the end of [in] were
    written. *)
Definition io_Copy (dst : string) (rd : string * option error)
    : string * option error :=
  match file_Write dst rd.1 with
  | Some (n, err) => (takeS n rd.1, Some err)
  | None => rd
  end.

Definition copyFile (src dst : string) (fs : Files) : Files * option error :=
  match os_Open src with
  | inl err => (fs, Some err)
  | inr rd =>
      match os_Create dst with
      | Some err => (fs, Some err)
      | None =>
          let '(written, err) := io_Copy dst rd in
          (fs ++ [(dst, written)], err)
      end
  end.

(** The function [copyStatic] walks with; the state is the build tree. *)
Definition staticFn (src dst : string) (path : string) (v : visit) (fs : Files)
    : Files * option error :=
  match v with
  | VisitErr _ err => (fs, Some err)
  | Visit info =>
      if IsDir info then (fs, None)
      else
        let rel := (Rel src path).1 in
        let outPath := Join [dst; rel] in
        copyFile path outPath fs
  end.

Definition copyStatic (fs : Files) : Files * option error :=
  let src := "static" in
  let dst := Join [BuildPath; "static"] in
  match os_MkdirAll dst with
  | Some err => (fs, Some err)
  | None => Walk os_Lstat (staticFn src dst) (os_Tree src) src fs
  end.

Definition mustLoadTemplates : option error :=
  template_ParseFiles
    [Join [TemplatesPath; BaseTemplate]; Join [TemplatesPath; PageTemplate]].

(** [fmt.Println]: the operands with a space between them and a line
    break. *)
Definition fmt_Println (operands : list string) : string :=
  strings.Join operands " " +:+ newline.

(** The program: the build tree it leaves, what it printed on standard
    output, and its exit code. *)
Definition main (fs : Files) : Files * string * nat :=
  match mustLoadTemplates with
  | Some err => (fs, fmt_Println ["error loading templates: "; err], 1)
  | None =>
      match buildPages fs with
      | (fs1, Some err) => (fs1, fmt_Println ["error building site: "; err], 1)
      | (fs1, None) =>
          match copyStatic fs1 with
          | (fs2, Some err) =>
              (fs2, fmt_Println ["error copying static files: "; err], 1)
          | (fs2, None) => (fs2, "", 0)
          end
      end
  end.

End Program.

End Site.

(** ** The calls of a walk *)

Import filepath.

(** The calls [walkDir] makes on a tree when its function never returns an
    error, in order. *)
Fixpoint events (path name : string) (t : Tree) : list (string * visit) :=
  let d := {| Name := name; IsDir := isDirectory t |} in
  (path, Visit d) ::
  match t with
  | File => []
  | Directory readErr dirs =>
      match readErr with
      | Some e => [(path, VisitErr (Some d) e)]
      | None => []
      end ++
      (fix each (ds : list (string * Tree)) : list (string * visit) :=
         match ds with
         | [] => []
         | (name1, t1) :: rest => events (Join [path; name1]) name1 t1 ++ each rest
         end) dirs
  end.

Definition walkEvents (lstat : error + Tree) (root : string)
    : list (string * visit) :=
  match lstat with
  | inl err => [(root, VisitErr None err)]
  | inr t => events root (Base root) t
  end.

(** Calling a function along a list of calls, up to its first error. *)
Fixpoint runEvents {St : Type} (fn : string → visit → St → St * option error)
    (evs : list (string * visit)) (st : St) : St * option error :=
  match evs with
  | [] => (st, None)
  | (path, v) :: rest =>
      match fn path v st with
      | (st', Some err) => (st', Some err)
      | (st', None) => runEvents fn rest st'
      end
  end.

(** The entries visited before the first error a walk reports. *)
Fixpoint visitedBeforeError (evs : list (string * visit))
    : list (string * DirEntry) :=
  match evs with
  | (path, Visit d) :: rest => (path, d) :: visitedBeforeError rest
  | _ => []
  end.

(** The entries among the calls of a walk. *)
Fixpoint allVisits (evs : list (string * visit)) : list (string * DirEntry) :=
  match evs with
  | [] => []
  | (path, Visit d) :: rest => (path, d) :: allVisits rest
  | (_, VisitErr _ _) :: rest => allVisits rest
  end.

(** The nodes of a tree with their paths, in the order of the walk. *)
Fixpoint nodes (path name : string) (t : Tree) : list (string * DirEntry) :=
  (path, {| Name := name; IsDir := isDirectory t |}) ::
  match t with
  | File => []
  | Directory _ dirs =>
      (fix each (ds : list (string * Tree)) : list (string * DirEntry) :=
         match ds with
         | [] => []
         | (name1, t1) :: rest => nodes (Join [path; name1]) name1 t1 ++ each rest
         end) dirs
  end.

(** The markdown files under a root: the entries that are no directories
    and whose path ends in [.md]. *)
Definition isMarkdownFile (pd : string * DirEntry) : bool :=
  negb (IsDir pd.2) && strings.HasSuffix pd.1 ".md".

Definition markdownFiles (root : string) (t : Tree) : list string :=
  map fst (List.filter isMarkdownFile (nodes root (Base root) t)).

(** The files a sidebar lists: markdown files whose path does not contain
    the name of the root page. *)
Definition isCandidate (pd : string * DirEntry) : bool :=
  negb (IsDir pd.2) && negb (strings.Contains pd.1 Site.RootPage)
  && strings.HasSuffix pd.1 ".md".

(** The link of a sidebar entry as the specification words it, with
    [relRoot] the path of the current page's directory relative to the
    content root. *)
Definition specSidebarLink (root currentPath path : string) : string :=
  let relRoot := (Rel root (Dir currentPath)).1 in
  let rel := (Rel root path).1 in
  let link := if String.eqb relRoot "." then rel else Join [relRoot; rel] in
  strings.TrimSuffix link ".md" +:+ ".html".

(** An element that [Clean] keeps as it is. *)
Definition keptElem (e : string) : bool :=
  negb (String.eqb e "") && negb (String.eqb e ".") && negb (String.eqb e "..").

(** A relative path that is clean: its elements are all kept. *)
Definition cleanPath (s : string) : bool := forallb keptElem (splitSlash s).

(** A name as a directory lists it. *)
Definition goodName (n : string) : bool :=
  keptElem n && negb (strings.Contains n "/").

(** A tree as a file system presents it: the names in a directory are
    good names and differ from each other. *)
Fixpoint wellNamed (t : Tree) : Prop :=
  match t with
  | File => True
  | Directory _ dirs =>
      NoDup (map fst dirs) ∧
      (fix each (ds : list (string * Tree)) : Prop :=
         match ds with
         | [] => True
         | (name1, t1) :: rest => goodName name1 = true ∧ wellNamed t1 ∧ each rest
         end) dirs
  end.

(** The nodes of a tree by the names that lead to them, in the order of
    the walk. *)
Fixpoint relPaths (t : Tree) : list (list string) :=
  [] ::
  match t with
  | File => []
  | Directory _ dirs =>
      (fix each (ds : list (string * Tree)) : list (list string) :=
         match ds with
         | [] => []
         | (name1, t1) :: rest => map (cons name1) (relPaths t1) ++ each rest
         end) dirs
  end.

(** The calls [walk] makes on a tree when its function never returns an
    error, in order. *)
Fixpoint walkCalls (lstatErr : string → option error) (path name : string)
    (t : Tree) : list (string * visit) :=
  let info := {| Name := name; IsDir := isDirectory t |} in
  match t with
  | File => [(path, Visit info)]
  | Directory (Some err) _ => [(path, VisitErr (Some info) err)]
  | Directory None names =>
      (path, Visit info) ::
      (fix each (ds : list (string * Tree)) : list (string * visit) :=
         match ds with
         | [] => []
         | (name1, t1) :: rest =>
             let filename := Join [path; name1] in
             match lstatErr filename with
             | Some err => [(filename, VisitErr None err)]
             | None => walkCalls lstatErr filename name1 t1
             end ++ each rest
         end) names
  end.

Definition WalkCalls (lstatErr : string → option error) (lstat : error + Tree)
    (root : string) : list (string * visit) :=
  match lstat with
  | inl err => [(root, VisitErr None err)]
  | inr t => walkCalls lstatErr root (Base root) t
  end.

(** The files under a root that are no directories, in the order of the
    walk. *)
Definition isPlainFile (pd : string * DirEntry) : bool := negb (IsDir pd.2).

Definition plainFiles (root : string) (t : Tree) : list string :=
  map fst (List.filter isPlainFile (nodes root (Base root) t)).

(** The page of a markdown file: the file at its output path that holds
    what the base template gives for the converted markdown with its links
    rewritten, the name of the file as title, the sidebar of the file and
    the way from its directory back to the content root. *)
Definition isPageOf {world : Site.World} (mdPath : string) (f : string * string)
    : Prop :=
  ∃ md html rel,
    Site.os_ReadFile mdPath = inr md ∧
    Site.goldmark_Convert (Site.mdLinkToHTML md) = inr html ∧
    Rel (Dir mdPath) Site.ContentPath = (rel, None) ∧
    f.1 = Site.outputPath mdPath ∧
    Site.ExecuteTemplate Site.BaseTemplate
      {| Site.Title := Base (strings.TrimSuffix mdPath ".md");
         Site.HTML := html;
         Site.Sidebar := Site.generateSidebar Site.ContentPath mdPath;
         Site.PageRel := rel |} = (f.2, None).

(** The copy of a static file: the file at the path of the source
    relative to [src], below [dst], that holds all bytes of the source. *)
Definition isCopyOf {assets : Site.Assets} (src dst path : string)
    (f : string * string) : Prop :=
  f.1 = Join [dst; (Rel src path).1] ∧ Site.os_Open path = inr (f.2, None).

(** A string of ASCII white space only. *)
Fixpoint blank (s : string) : bool :=
  match s with
  | "" => true
  | String c t => strings.asciiSpace c && blank t
  end.

(** ** Concrete environments *)

Definition quote : string := String "034" "".

(** A reader of flat [key: value] lines, standing in for the YAML engine. *)
Fixpoint yamlLines (lines : list string) : option (gmap string string) :=
  match lines with
  | [] => Some ∅
  | l :: rest =>
      match strings.SplitN l ": " 2, yamlLines rest with
      | [k; v], Some m => Some (<[k := v]> m)
      | _, _ => None
      end
  end.

Definition flatYaml (data : string) : option (gmap string string) * option error :=
  if isEmpty data then (None, None)
  else match yamlLines (strings.SplitN data newline (-1)) with
       | Some m => (Some m, None)
       | None => (None, Some "yaml: unmarshal errors")
       end.

(** A runtime for ASCII inputs, on which the Unicode-aware paths of
    [TrimSpace] are never taken. *)
Definition asciiRuntime : GoRuntime := {|
  unicode_TrimSpace := λ s, s;
  unicode_TrimRightSpace := λ s, s;
  yaml_Unmarshal := flatYaml;
  json_String := λ s, quote +:+ s +:+ quote;
|}.

Definition helloPage : string :=
  "---" +:+ newline +:+ "title: Hello" +:+ newline +:+ "---" +:+ newline +:+ "Body".

Definition getRequest (path : string) : Request :=
  {| URL_Path := path; URL_Query := ∅ |}.

(** A network on which every page exists and has no frontmatter. *)
Definition plainNet : Remote.Net := {|
  Remote.fetch_NewRequest := λ _ _, None;
  Remote.fetch_Do := λ _ _, inr (200, "Just text.");
|}.

(** A network that answers 404 to everything. *)
Definition missingNet : Remote.Net := {|
  Remote.fetch_NewRequest := λ _ _, None;
  Remote.fetch_Do := λ _ _, inr (404, "404: Not Found");
|}.

(** A network that is down. *)
Definition downNet : Remote.Net := {|
  Remote.fetch_NewRequest := λ _ _, None;
  Remote.fetch_Do := λ _ _, inl "fetch failed: connection refused";
|}.

(** A disk on which every page exists and has no frontmatter. *)
Definition plainDisk : Local.Disk := {|
  Local.os_ReadFile := λ _, inr "Just text.";
|}.

(** A disk whose files exist but may not be read. *)
Definition deniedDisk : Local.Disk := {|
  Local.os_ReadFile := λ name, inl ("open " +:+ name +:+ ": permission denied");
|}.

(** A small site: a guide with one page, the root page, an image and a
    top-level page; every operation of the operating system succeeds. *)
Definition exampleTree : Tree :=
  Directory None
    [("guide", Directory None [("intro.md", File)]);
     ("index.md", File);
     ("logo.png", File);
     ("top.md", File)].

Definition exampleWorld : Site.World := {|
  Site.os_Tree := λ root,
    if String.eqb root "content" then inr exampleTree
    else inl ("lstat " +:+ root +:+ ": no such file or directory");
  Site.os_MkdirAll := λ _, None;
  Site.os_ReadFile := λ name, inr ("See " +:+ name);
  Site.os_Create := λ _, None;
  Site.goldmark_Convert := λ md, inr ("<p>" +:+ md +:+ "</p>");
  Site.ExecuteTemplate := λ _ data, (Site.HTML data, None);
|}.

(** The same site with static files beside it: a style sheet in a
    directory and an image. *)
Definition staticTree : Tree :=
  Directory None
    [("css", Directory None [("site.css", File)]);
     ("logo.png", File)].

Definition siteWorld : Site.World := {|
  Site.os_Tree := λ root,
    if String.eqb root "content" then inr exampleTree
    else if String.eqb root "static" then inr staticTree
    else inl ("lstat " +:+ root +:+ ": no such file or directory");
  Site.os_MkdirAll := λ _, None;
  Site.os_ReadFile := λ name, inr ("See " +:+ name);
  Site.os_Create := λ _, None;
  Site.goldmark_Convert := λ md, inr ("<p>" +:+ md +:+ "</p>");
  Site.ExecuteTemplate := λ _ data, (Site.HTML data, None);
|}.

Definition siteAssets : Site.Assets := {|
  Site.os_Lstat := λ _, None;
  Site.os_Open := λ name, inr ("bytes of " +:+ name, None);
  Site.file_Write := λ _ _, None;
  Site.template_ParseFiles := λ _, None;
|}.

(** A network whose server fails: status 500 and an error page. *)
Definition brokenNet : Remote.Net := {|
  Remote.fetch_NewRequest := λ _ _, None;
  Remote.fetch_Do := λ _ _, inr (500, "Internal Server Error");
|}.

(** A network on which only the guide of the main branch can be reached. *)
Definition guideNet : Remote.Net := {|
  Remote.fetch_NewRequest := λ _ _, None;
  Remote.fetch_Do := λ url _,
    if String.eqb url (Remote.Sprintf_REPO_URL "main" "guide.md")
    then inr (200, "Just text.")
    else inl "fetch failed: connection refused";
|}.

(** A disk that holds the guide and nothing else. *)
Definition guideDisk : Local.Disk := {|
  Local.os_ReadFile := λ name,
    if String.eqb name "content/guide.md" then inr "Just text."
    else inl ("open " +:+ name +:+ ": no such file or directory");
|}.

(** * Properties *)

(** ** The library functions on known inputs *)

Example Clean_examples :
  map Clean ["a//b/./c/.."; "/../a"; "../../a/../.."; ""; "/"; "a/b/../../.."; "content/a.md"]
  = ["a/b"; "/a"; "../../.."; "."; "/"; ".."; "content/a.md"].
Proof. reflexivity. Qed.

Example Rel_examples :
  map (λ bt, Rel bt.1 bt.2)
    [("a/b", "a/b/c/d"); ("a/b/c", "a/c/d"); ("ab/cd", "ab/cde"); (".", "a/b");
     ("content", "content/guide/intro.md"); ("content/guide", "content");
     ("content", "content")]
  = [("c/d", None); ("../../c/d", None); ("../cde", None); ("a/b", None);
     ("guide/intro.md", None); ("..", None); (".", None)].
Proof. reflexivity. Qed.

Example Rel_error :
  Rel ".." "a" = ("", Some "Rel: can't make a relative to ..").
Proof. reflexivity. Qed.

Example Dir_Base_examples :
  map Dir ["content/guide/intro.md"; "top.md"; "/a"; ""] = ["content/guide"; "."; "/"; "."] ∧
  map Base ["content/guide/intro.md"; "../top"; "a/b/"; "/"; ""] = ["intro.md"; "top"; "b"; "/"; "."].
Proof. split; reflexivity. Qed.

Example SplitN_examples :
  strings.SplitN "a---b---c---d" "---" 3 = ["a"; "b"; "c---d"] ∧
  strings.SplitN "------" "---" 3 = [""; ""; ""] ∧
  strings.SplitN "---x" "---" 3 = [""; "x"] ∧
  strings.SplitN "a,b,c" "," (-1) = ["a"; "b"; "c"].
Proof. repeat split; reflexivity. Qed.

Example TrimSpace_example `{!GoRuntime} :
  strings.TrimSpace (" " +:+ newline +:+ "title: Hello " +:+ newline) = "title: Hello".
Proof. reflexivity. Qed.

Example generateSidebar_example :
  Site.generateSidebar (world := exampleWorld) "content" "content/top.md" =
    [{| Site.NavTitle := "intro"; Site.Link := "guide/intro.html" |};
     {| Site.NavTitle := "top"; Site.Link := "top.html" |}].
Proof. reflexivity. Qed.

(** ** Byte strings *)

Lemma str_app_assoc (a b c : string) : (a +:+ b) +:+ c = a +:+ b +:+ c.
Proof.
  induction a as [|x a IH]; [done|].
  unfold String.app in *. simpl. by rewrite IH.
Qed.

Lemma str_app_cons (x : ascii) (a b : string) : String x a +:+ b = String x (a +:+ b).
Proof. done. Qed.

Lemma str_app_nil_l (s : string) : "" +:+ s = s.
Proof. done. Qed.

Lemma str_length_app (a b : string) :
  String.length (a +:+ b) = String.length a + String.length b.
Proof.
  induction a as [|x a IH]; [done|].
  rewrite str_app_cons. simpl. by rewrite IH.
Qed.

(** ** The frontmatter extractor *)

Section Frontmatter.
Context `{!GoRuntime}.

(** C9: the extractor of the remote-fetch handler and the extractor of the
    local-read handler return the same result on every input. *)
Theorem parseFrontmatter_variants_agree (md : string) :
  Remote.parseFrontmatter md = Local.parseFrontmatter md.
Proof. reflexivity. Qed.

(** C4: frontmatter extraction always returns (it never panics and has no
    error result). It returns the nil map when the trimmed content does
    not start with the delimiter, when the split yields fewer than three
    parts, and when the YAML engine reports an error on the trimmed middle
    part; otherwise it returns the map the engine produced. *)
Theorem parseFrontmatter_total (md : string) :
  let content := strings.TrimSpace md in
  let parts := strings.SplitN content "---" 3 in
  ∃ fm : option (gmap string string),
    Remote.parseFrontmatter md = Returns fm ∧
    Local.parseFrontmatter md = Returns fm ∧
    (strings.HasPrefix content "---" = false → fm = None) ∧
    (length parts < 3 → fm = None) ∧
    (strings.HasPrefix content "---" = true → 3 ≤ length parts →
     ∃ part1, parts !! 1 = Some part1 ∧
       match yaml_Unmarshal (strings.TrimSpace part1) with
       | (_, Some _) => fm = None
       | (m, None) => fm = m
       end).
Proof.
  intros content parts.
  change (Local.parseFrontmatter md) with (Remote.parseFrontmatter md).
  unfold Remote.parseFrontmatter. fold content. fold parts.
  destruct (strings.HasPrefix content "---") eqn:Hpre; simpl.
  - destruct (Nat.ltb_spec (length parts) 3) as [Hlt|Hge].
    + exists None. repeat split; try done. lia.
    + destruct (parts !! 1) as [part1|] eqn:Hp1.
      * destruct (yaml_Unmarshal (strings.TrimSpace part1)) as [m [e|]] eqn:Hy.
        -- exists None. repeat split; try done; try lia.
           intros _ _. exists part1. by rewrite Hy.
        -- exists m. repeat split; try done; try lia.
           intros _ _. exists part1. by rewrite Hy.
      * apply lookup_ge_None in Hp1. lia.
  - exists None. repeat split; done.
Qed.

(** C7: on the page [---\ntitle: Hello\n---\nBody] the extractor hands
    [title: Hello] to the YAML engine; when the engine reads that as the
    one-entry map from [title] to [Hello], this map is the result. *)
Theorem parseFrontmatter_hello :
  yaml_Unmarshal "title: Hello" = (Some {[ "title" := "Hello" ]}, None) →
  Remote.parseFrontmatter helloPage = Returns (Some {[ "title" := "Hello" ]}) ∧
  Local.parseFrontmatter helloPage = Returns (Some {[ "title" := "Hello" ]}).
Proof.
  intros Hyaml.
  change (Local.parseFrontmatter helloPage) with (Remote.parseFrontmatter helloPage).
  cut (Remote.parseFrontmatter helloPage = Returns (Some {[ "title" := "Hello" ]}));
    [by intros ->|].
  unfold Remote.parseFrontmatter.
  assert (Hc : strings.TrimSpace helloPage = helloPage) by (vm_compute; reflexivity).
  rewrite Hc.
  assert (Hp : strings.SplitN helloPage "---" 3 =
    [""; newline +:+ "title: Hello" +:+ newline; newline +:+ "Body"])
    by (vm_compute; reflexivity).
  rewrite Hp. simpl.
  assert (Hm : strings.TrimSpace (newline +:+ "title: Hello" +:+ newline) = "title: Hello")
    by (vm_compute; reflexivity).
  rewrite Hm, Hyaml. reflexivity.
Qed.

End Frontmatter.

Lemma parseFrontmatter_hello_witness :
  Remote.parseFrontmatter (rt := asciiRuntime) helloPage
    = Returns (Some {[ "title" := "Hello" ]}) ∧
  Local.parseFrontmatter (rt := asciiRuntime) helloPage
    = Returns (Some {[ "title" := "Hello" ]}).
Proof.
  apply (@parseFrontmatter_hello asciiRuntime).
  vm_compute. reflexivity.
Defined.

(** ** The frontmatter handlers *)

Lemma isEmpty_false (s : string) : s ≠ "" → isEmpty s = false.
Proof. by destruct s. Qed.

Lemma json_Marshal_empty `{!GoRuntime} : json_Marshal (Some ∅) = "{}".
Proof. unfold json_Marshal. rewrite map_to_list_empty. reflexivity. Qed.

(** The response to a page without frontmatter: the JSON content type, the
    empty object and a line break, with status 200 when none was sent. *)
Lemma Encode_empty `{!GoRuntime} (w : ResponseWriter) :
  let w' := Encode (Header_Set "Content-Type" "application/json" w) (Some ∅) in
  Header w' !! "Content-Type" = Some "application/json" ∧
  Body w' = Body w +:+ "{}" +:+ newline ∧
  Status w' = Some (default 200 (Status w)).
Proof.
  unfold Encode, Write, WriteHeader, Header_Set. rewrite json_Marshal_empty.
  destruct w as [h [c|] b]; simpl; by rewrite lookup_insert_eq.
Qed.

Section RemoteHandler.
Context `{!GoRuntime, !Remote.Net}.

Lemma fetchWikiPage_not_found (path branch body : string) :
  Remote.fetch_NewRequest "GET" (Remote.Sprintf_REPO_URL branch path) = None →
  Remote.fetch_Do (Remote.Sprintf_REPO_URL branch path) Remote.USER_AGENT
    = inr (404, body) →
  Remote.fetchWikiPage path branch = inl "file not found".
Proof. intros Hreq Hdo. unfold Remote.fetchWikiPage. by rewrite Hreq, Hdo. Qed.

Lemma remote_apiHandler_error (w : ResponseWriter) (r : Request) (err : error) :
  let path := strings.TrimPrefix (URL_Path r) "/api/" in
  let branch := Values_Get (URL_Query r) "branch" in
  path ≠ "" →
  Remote.fetchWikiPage (path +:+ ".md") (if isEmpty branch then "main" else branch)
    = inl err →
  Remote.apiHandler w r =
    if String.eqb err "file not found"
    then Returns (http_Error w "file not found" 404, "")
    else Returns (http_Error w "internal error" 500, "error: " +:+ err +:+ newline).
Proof.
  intros path branch Hpath Hfetch. unfold Remote.apiHandler.
  fold path. fold branch. rewrite (isEmpty_false _ Hpath), Hfetch. reflexivity.
Qed.

Lemma remote_apiHandler_no_frontmatter (w : ResponseWriter) (r : Request)
    (data : string) :
  let path := strings.TrimPrefix (URL_Path r) "/api/" in
  let branch := Values_Get (URL_Query r) "branch" in
  path ≠ "" →
  Remote.fetchWikiPage (path +:+ ".md") (if isEmpty branch then "main" else branch)
    = inr data →
  Remote.parseFrontmatter data = Returns None →
  Remote.apiHandler w r =
    Returns (Encode (Header_Set "Content-Type" "application/json" w) (Some ∅), "").
Proof.
  intros path branch Hpath Hfetch Hfm. unfold Remote.apiHandler.
  fold path. fold branch. by rewrite (isEmpty_false _ Hpath), Hfetch, Hfm.
Qed.

End RemoteHandler.

Section LocalHandler.
Context `{!GoRuntime, !Local.Disk}.

Lemma local_apiHandler_error (w : ResponseWriter) (r : Request) (err : error) :
  let path := strings.TrimPrefix (URL_Path r) "/api/" in
  path ≠ "" →
  Local.os_ReadFile ("content/" +:+ path +:+ ".md") = inl err →
  Local.apiHandler w r = Returns (http_Error w "file not found" 404, "").
Proof.
  intros path Hpath Hread. unfold Local.apiHandler.
  fold path. by rewrite (isEmpty_false _ Hpath), Hread.
Qed.

Lemma local_apiHandler_no_frontmatter (w : ResponseWriter) (r : Request)
    (data : string) :
  let path := strings.TrimPrefix (URL_Path r) "/api/" in
  path ≠ "" →
  Local.os_ReadFile ("content/" +:+ path +:+ ".md") = inr data →
  Local.parseFrontmatter data = Returns None →
  Local.apiHandler w r =
    Returns (Encode (Header_Set "Content-Type" "application/json" w) (Some ∅), "").
Proof.
  intros path Hpath Hread Hfm. unfold Local.apiHandler.
  fold path. by rewrite (isEmpty_false _ Hpath), Hread, Hfm.
Qed.

End LocalHandler.


(** C8: when the page was fetched (or read) and has no frontmatter, the
    handler answers with the JSON content type and the empty object, not
    with an error, in both variants. *)
Theorem apiHandler_no_frontmatter `{!GoRuntime} (w : ResponseWriter) (r : Request)
    (data : string) :
  let path := strings.TrimPrefix (URL_Path r) "/api/" in
  let branch := Values_Get (URL_Query r) "branch" in
  let branch' := if isEmpty branch then "main" else branch in
  path ≠ "" →
  Remote.parseFrontmatter data = Returns None →
  (∀ net : Remote.Net,
     Remote.fetchWikiPage (path +:+ ".md") branch' = inr data →
     ∃ w', Remote.apiHandler w r = Returns (w', "") ∧
       Header w' !! "Content-Type" = Some "application/json" ∧
       Body w' = Body w +:+ "{}" +:+ newline ∧
       Status w' = Some (default 200 (Status w))) ∧
  (∀ disk : Local.Disk,
     Local.os_ReadFile ("content/" +:+ path +:+ ".md") = inr data →
     ∃ w', Local.apiHandler w r = Returns (w', "") ∧
       Header w' !! "Content-Type" = Some "application/json" ∧
       Body w' = Body w +:+ "{}" +:+ newline ∧
       Status w' = Some (default 200 (Status w))).
Proof.
  intros path branch branch' Hpath Hfm. split.
  - intros net Hfetch. eexists. split.
    + by apply (remote_apiHandler_no_frontmatter w r data).
    + apply Encode_empty.
  - intros disk Hread. eexists. split.
    + by apply (local_apiHandler_no_frontmatter w r data).
    + apply Encode_empty.
Qed.



Lemma apiHandler_no_frontmatter_witness :
  (∃ w', Remote.apiHandler (rt := asciiRuntime) (net := plainNet)
           newResponseWriter (getRequest "/api/guide") = Returns (w', "") ∧
     Header w' !! "Content-Type" = Some "application/json" ∧
     Body w' = "" +:+ "{}" +:+ newline ∧
     Status w' = Some 200) ∧
  (∃ w', Local.apiHandler (rt := asciiRuntime) (disk := plainDisk)
           newResponseWriter (getRequest "/api/guide") = Returns (w', "") ∧
     Header w' !! "Content-Type" = Some "application/json" ∧
     Body w' = "" +:+ "{}" +:+ newline ∧
     Status w' = Some 200).
Proof.
  assert (Hpath : strings.TrimPrefix (URL_Path (getRequest "/api/guide")) "/api/" ≠ "")
    by (vm_compute; discriminate).
  assert (Hfm : Remote.parseFrontmatter (rt := asciiRuntime) "Just text." = Returns None)
    by (vm_compute; reflexivity).
  destruct (@apiHandler_no_frontmatter asciiRuntime newResponseWriter
              (getRequest "/api/guide") "Just text." Hpath Hfm) as [Hnet Hdisk].
  split.
  - apply (Hnet plainNet). reflexivity.
  - apply (Hdisk plainDisk). reflexivity.
Defined.

(** ** Searching and replacing *)

Lemma length_dropS (n : nat) (s : string) :
  String.length (dropS n s) = String.length s - n.
Proof.
  revert s. induction n as [|n IH]; intros [|c s]; simpl; auto.
Qed.

Lemma takeS_app (a b : string) : takeS (String.length a) (a +:+ b) = a.
Proof.
  induction a as [|c a IH]; simpl; [by destruct b|].
  rewrite ?str_app_cons; simpl. by rewrite IH.
Qed.

Lemma dropS_app (a b : string) : dropS (String.length a) (a +:+ b) = b.
Proof.
  induction a as [|c a IH]; simpl; [by destruct b|].
  rewrite ?str_app_cons; simpl. by rewrite ?IH.
Qed.

Lemma takeS_app_le (n : nat) (a b : string) :
  n ≤ String.length a → takeS n (a +:+ b) = takeS n a.
Proof.
  revert a. induction n as [|n IH]; intros [|c a] Hn; simpl in *;
    try lia; try by destruct b.
  rewrite ?str_app_cons; simpl. rewrite IH; [done|lia].
Qed.

Lemma dropS_app_le (n : nat) (a b : string) :
  n ≤ String.length a → dropS n (a +:+ b) = dropS n a +:+ b.
Proof.
  revert a. induction n as [|n IH]; intros [|c a] Hn; simpl in *;
    try lia; try done.
  rewrite ?str_app_cons; simpl. apply IH. lia.
Qed.

Lemma takeS_dropS (n : nat) (s : string) : takeS n s +:+ dropS n s = s.
Proof.
  revert s. induction n as [|n IH]; intros [|c s]; simpl; try done.
  rewrite ?str_app_cons. by rewrite IH.
Qed.

Lemma dropS_dropS (n m : nat) (s : string) : dropS m (dropS n s) = dropS (n + m) s.
Proof.
  revert s. induction n as [|n IH]; intros s; simpl; [done|].
  destruct s as [|c s]; [by destruct m|]. apply IH.
Qed.

Lemma HasPrefix_app (p s : string) : strings.HasPrefix (p +:+ s) p = true.
Proof.
  induction p as [|c p IH]; simpl; [done|].
  rewrite ?str_app_cons; simpl. by rewrite Ascii.eqb_refl.
Qed.

Lemma HasPrefix_split (s p : string) :
  strings.HasPrefix s p = true → s = p +:+ dropS (String.length p) s.
Proof.
  revert s. induction p as [|c p IH]; intros s; simpl; [done|].
  destruct s as [|x s]; [done|].
  destruct (Ascii.eqb_spec x c) as [->|]; [|done].
  intros H. rewrite str_app_cons. f_equal. by apply IH.
Qed.

Lemma HasPrefix_app_l (a b p : string) :
  strings.HasPrefix a p = true → strings.HasPrefix (a +:+ b) p = true.
Proof.
  intros H. rewrite (HasPrefix_split _ _ H), str_app_assoc. apply HasPrefix_app.
Qed.

Lemma HasPrefix_takeS (n : nat) (s p : string) :
  strings.HasPrefix (takeS n s) p = true → strings.HasPrefix s p = true.
Proof.
  intros H. rewrite <- (takeS_dropS n s). by apply HasPrefix_app_l.
Qed.

Lemma Index_nil (sub : string) : sub ≠ "" → strings.Index "" sub = None.
Proof. by destruct sub. Qed.

Lemma Index_cons (c : ascii) (s sub : string) :
  strings.HasPrefix (String c s) sub = false →
  strings.Index (String c s) sub = S <$> strings.Index s sub.
Proof. intros H. simpl strings.Index. by rewrite H. Qed.

Lemma Index_prefix (s sub : string) :
  strings.HasPrefix s sub = true → strings.Index s sub = Some 0.
Proof. intros H. destruct s; simpl strings.Index; by rewrite H. Qed.

(** The instance [Index] finds is an instance, and it ends inside [s]. *)
Lemma Index_Some (s sub : string) (j : nat) :
  strings.Index s sub = Some j →
  strings.HasPrefix (dropS j s) sub = true ∧ j + String.length sub ≤ String.length s.
Proof.
  revert j. induction s as [|c s IH]; intros j.
  - simpl. destruct (strings.HasPrefix "" sub) eqn:Hp; [|done].
    intros [= <-]. split; [done|]. by destruct sub.
  - destruct (strings.HasPrefix (String c s) sub) eqn:Hp.
    + rewrite (Index_prefix _ _ Hp). intros [= <-]. split; [done|].
      rewrite (HasPrefix_split _ _ Hp), str_length_app. lia.
    + rewrite (Index_cons _ _ _ Hp).
      destruct (strings.Index s sub) as [j'|] eqn:Hi; [|done].
      intros [= <-]. destruct (IH j' eq_refl) as [H1 H2]. split; [done|].
      simpl. lia.
Qed.

(** In front of the instance [Index] finds there is no instance. *)
Lemma Index_takeS (s sub : string) (j : nat) :
  sub ≠ "" → strings.Index s sub = Some j →
  strings.Index (takeS j s) sub = None.
Proof.
  intros Hsub. revert j. induction s as [|c s IH]; intros j.
  - rewrite (Index_nil _ Hsub). done.
  - destruct (strings.HasPrefix (String c s) sub) eqn:Hp.
    + rewrite (Index_prefix _ _ Hp). intros [= <-]. by apply Index_nil.
    + rewrite (Index_cons _ _ _ Hp).
      destruct (strings.Index s sub) as [j'|] eqn:Hi; [|done].
      intros [= <-]. simpl takeS. rewrite Index_cons.
      * by rewrite (IH j' eq_refl).
      * destruct (strings.HasPrefix (String c (takeS j' s)) sub) eqn:Hp'; [|done].
        apply (HasPrefix_takeS (S j') (String c s)) in Hp'. congruence.
Qed.

(** An instance inside [a] is still the first one when [a] is extended. *)
Lemma Index_app_l (a b sub : string) (j : nat) :
  strings.Index a sub = Some j → strings.Index (a +:+ b) sub = Some j.
Proof.
  revert j. induction a as [|c a IH]; intros j.
  - simpl. destruct (strings.HasPrefix "" sub) eqn:Hp; [|done].
    intros [= <-]. apply Index_prefix. destruct sub; [|done]. by destruct b.
  - destruct (strings.HasPrefix (String c a) sub) eqn:Hp.
    + rewrite (Index_prefix _ _ Hp). intros [= <-].
      apply Index_prefix. by apply HasPrefix_app_l.
    + rewrite (Index_cons _ _ _ Hp).
      destruct (strings.Index a sub) as [j'|] eqn:Hi; [|done].
      intros [= <-]. rewrite str_app_cons.
      destruct (strings.HasPrefix (String c (a +:+ b)) sub) eqn:Hp'.
      * (* an instance at 0 reaching into [b] would end behind the one at j' *)
        exfalso. destruct (Index_Some _ _ _ Hi) as [_ Hlen].
        apply HasPrefix_split in Hp'.
        assert (Hin : strings.HasPrefix (String c a) sub = true); [|congruence].
        rewrite <- str_app_cons in Hp'.
        assert (Hs : takeS (String.length sub) (String c a +:+ b) = sub).
        { rewrite Hp' at 1. apply takeS_app. }
        rewrite takeS_app_le in Hs by (simpl; lia).
        pose proof (takeS_dropS (String.length sub) (String c a)) as Hsplit.
        rewrite Hs in Hsplit. rewrite <- Hsplit. apply HasPrefix_app.
      * rewrite (Index_cons _ _ _ Hp'). by rewrite (IH j' eq_refl).
Qed.

Lemma countLoop_fuel (sub s : string) (f1 f2 : nat) :
  sub ≠ "" → String.length s ≤ f1 → String.length s ≤ f2 →
  strings.countLoop f1 s sub = strings.countLoop f2 s sub.
Proof.
  intros Hsub. assert (1 ≤ String.length sub) by (destruct sub; simpl; [done|lia]).
  revert s f2. induction f1 as [|f1 IH]; intros s f2 H1 H2.
  - destruct s; [|simpl in H1; lia].
    destruct f2; [done|]. cbn [strings.countLoop]. by rewrite (Index_nil _ Hsub).
  - destruct f2 as [|f2].
    + destruct s; [|simpl in H2; lia].
      cbn [strings.countLoop]. by rewrite (Index_nil _ Hsub).
    + cbn [strings.countLoop].
      destruct (strings.Index s sub) as [i|] eqn:Hi; [|done].
      f_equal. destruct (Index_Some _ _ _ Hi) as [_ Hlen].
      apply IH; rewrite length_dropS; lia.
Qed.

(** [Count] unfolds along the first instance. *)
Lemma Count_unfold (s sub : string) :
  sub ≠ "" →
  strings.Count s sub =
    match strings.Index s sub with
    | None => 0
    | Some i => S (strings.Count (dropS (i + String.length sub) s) sub)
    end.
Proof.
  intros Hsub. unfold strings.Count.
  destruct (strings.Index s sub) as [i|] eqn:Hi.
  - destruct (Index_Some _ _ _ Hi) as [_ Hlen].
    assert (1 ≤ String.length sub) by (destruct sub; simpl; [done|lia]).
    destruct (String.length s) as [|n] eqn:Hn; [lia|].
    cbn [strings.countLoop]. rewrite Hi. f_equal.
    apply countLoop_fuel; [done| |done]. rewrite length_dropS. lia.
  - destruct (String.length s); cbn [strings.countLoop]; [done|]. by rewrite Hi.
Qed.

(** [ReplaceAll] unfolds along the first instance of [old]. *)
Lemma ReplaceAll_unfold (s old new : string) :
  old ≠ "" → old ≠ new →
  strings.ReplaceAll s old new =
    match strings.Index s old with
    | None => s
    | Some j =>
        takeS j s +:+ new +:+
        strings.ReplaceAll (dropS (j + String.length old) s) old new
    end.
Proof.
  intros Hold Hne. unfold strings.ReplaceAll, strings.Replace.
  apply String.eqb_neq in Hne as ->. cbn [orb Z.eqb Z.ltb Z.compare].
  rewrite (Count_unfold s old Hold).
  destruct (strings.Index s old) as [j|] eqn:Hi; [|done].
  cbn [Nat.eqb strings.replaceLoop]. rewrite Hi. do 2 f_equal.
  destruct (strings.Count (dropS (j + String.length old) s) old); done.
Qed.

(** ** The link rewrite *)

Lemma mdLinkToHTML_unfold (md : string) :
  Site.mdLinkToHTML md =
    match strings.Index md ".md" with
    | None => md
    | Some j => takeS j md +:+ ".html" +:+ Site.mdLinkToHTML (dropS (j + 3) md)
    end.
Proof. unfold Site.mdLinkToHTML. by rewrite ReplaceAll_unfold at 1. Qed.

Lemma HasPrefix_dot (x : string) :
  strings.HasPrefix x "." = true → ∃ x', x = String "." x'.
Proof.
  destruct x as [|c x']; simpl; [done|].
  destruct (Ascii.eqb_spec c "."); [|done]. subst. eauto.
Qed.

(** An instance of [.md] cannot begin in front of a dot and reach over it:
    the pattern has its only dot in front. *)
Lemma HasPrefix_md_cons (c : ascii) (t x : string) :
  strings.HasPrefix (String c t) ".md" = false →
  strings.HasPrefix x "." = true →
  strings.HasPrefix (String c (t +:+ x)) ".md" = false.
Proof.
  intros Ht [x' ->]%HasPrefix_dot. revert Ht.
  destruct t as [|m [|d t']]; simpl; destruct (Ascii.eqb c "."); try done;
    destruct (Ascii.eqb m "m"); try done; destruct (Ascii.eqb d "d"); done.
Qed.

Lemma Index_md_app (p x : string) :
  strings.Index p ".md" = None →
  strings.HasPrefix x "." = true →
  strings.Index (p +:+ x) ".md" = (λ i, String.length p + i) <$> strings.Index x ".md".
Proof.
  intros Hp Hx. induction p as [|c t IH].
  - rewrite str_app_nil_l. by destruct (strings.Index x ".md").
  - destruct (strings.HasPrefix (String c t) ".md") eqn:Hpre.
    { by rewrite (Index_prefix _ _ Hpre) in Hp. }
    rewrite (Index_cons _ _ _ Hpre) in Hp.
    destruct (strings.Index t ".md") eqn:Ht; [done|].
    rewrite str_app_cons, Index_cons by (by apply HasPrefix_md_cons).
    rewrite IH by done. by destruct (strings.Index x ".md").
Qed.

Lemma mdLinkToHTML_fixed (md : string) :
  strings.Contains md ".md" = false → Site.mdLinkToHTML md = md.
Proof.
  unfold strings.Contains. rewrite mdLinkToHTML_unfold.
  by destruct (strings.Index md ".md").
Qed.

(** The rewrite distributes over an instance of [.md]. *)
Lemma mdLinkToHTML_app (a b : string) :
  Site.mdLinkToHTML (a +:+ ".md" +:+ b) =
    Site.mdLinkToHTML a +:+ ".html" +:+ Site.mdLinkToHTML b.
Proof.
  remember (String.length a) as n eqn:Hn. revert a Hn.
  induction n as [n IH] using lt_wf_ind. intros a ->.
  rewrite (mdLinkToHTML_unfold a).
  destruct (strings.Index a ".md") as [j|] eqn:Hi.
  - destruct (Index_Some _ _ _ Hi) as [_ Hlen]. simpl in Hlen.
    rewrite mdLinkToHTML_unfold, (Index_app_l _ _ _ _ Hi).
    rewrite takeS_app_le, dropS_app_le by lia.
    rewrite (IH (String.length (dropS (j + 3) a))) by (rewrite ?length_dropS; lia || done).
    by rewrite !str_app_assoc.
  - rewrite mdLinkToHTML_unfold, Index_md_app by done.
    change (strings.Index (".md" +:+ b) ".md") with (Some 0). simpl.
    rewrite Nat.add_0_r, takeS_app.
    by rewrite <- dropS_dropS, dropS_app.
Qed.

Lemma Index_html (q : string) :
  strings.Index q ".md" = None → strings.Index (".html" +:+ q) ".md" = None.
Proof.
  intros Hq.
  change (".html" +:+ q) with (String "." (String "h" (String "t" (String "m" (String "l" q))))).
  rewrite !Index_cons by done. by rewrite Hq.
Qed.

(** The result of the rewrite holds no instance of [.md]. *)
Lemma mdLinkToHTML_no_md (md : string) :
  strings.Index (Site.mdLinkToHTML md) ".md" = None.
Proof.
  remember (String.length md) as n eqn:Hn. revert md Hn.
  induction n as [n IH] using lt_wf_ind. intros md ->.
  rewrite mdLinkToHTML_unfold.
  destruct (strings.Index md ".md") as [j|] eqn:Hi; [|done].
  destruct (Index_Some _ _ _ Hi) as [_ Hlen]. simpl in Hlen.
  rewrite Index_md_app.
  - rewrite Index_html; [done|].
    apply (IH (String.length (dropS (j + 3) md))); [|done].
    rewrite length_dropS. lia.
  - by apply Index_takeS.
  - done.
Qed.

(** C6: the rewrite replaces every instance of [.md] by [.html], in link
    targets and everywhere else, and changes nothing else: it distributes
    over each instance, and it leaves a text without an instance as it is.
    The markdown engine gets the rewritten bytes. *)
Theorem mdLinkToHTML_replaces_every_md :
  (∀ a b : string,
     Site.mdLinkToHTML (a +:+ ".md" +:+ b) =
       Site.mdLinkToHTML a +:+ ".html" +:+ Site.mdLinkToHTML b) ∧
  (∀ md : string, strings.Contains md ".md" = false → Site.mdLinkToHTML md = md) ∧
  Site.mdLinkToHTML "[link](other.md)" = "[link](other.html)" ∧
  Site.mdLinkToHTML "see my.md file" = "see my.html file" ∧
  (∀ (world : Site.World) (mdPath md : string),
     Site.os_ReadFile mdPath = inr md →
     Site.renderMarkdown mdPath = Site.goldmark_Convert (Site.mdLinkToHTML md)).
Proof.
  split; [apply mdLinkToHTML_app|]. split; [apply mdLinkToHTML_fixed|].
  split; [by vm_compute|]. split; [by vm_compute|].
  intros world mdPath md Hread. unfold Site.renderMarkdown. by rewrite Hread.
Qed.

(** C10: the rewrite is idempotent, and its result never contains [.md]. *)
Theorem mdLinkToHTML_idempotent (md : string) :
  Site.mdLinkToHTML (Site.mdLinkToHTML md) = Site.mdLinkToHTML md ∧
  strings.Contains (Site.mdLinkToHTML md) ".md" = false.
Proof.
  assert (H : strings.Contains (Site.mdLinkToHTML md) ".md" = false).
  { unfold strings.Contains. by rewrite mdLinkToHTML_no_md. }
  split; [by apply mdLinkToHTML_fixed|done].
Qed.

(** ** Walks as lists of calls *)

Section TreeInduction.
Variable P : Tree → Prop.
Hypothesis HFile : P File.
Hypothesis HDirectory :
  ∀ readErr dirs, Forall (λ nt, P nt.2) dirs → P (Directory readErr dirs).

Fixpoint Tree_ind' (t : Tree) : P t :=
  match t with
  | File => HFile
  | Directory readErr dirs =>
      HDirectory readErr dirs
        ((fix each (ds : list (string * Tree)) : Forall (λ nt, P nt.2) ds :=
            match ds with
            | [] => @List.Forall_nil _ (λ nt, P nt.2)
            | (name1, t1) :: rest =>
                @List.Forall_cons _ (λ nt, P nt.2) (name1, t1) rest
                  (Tree_ind' t1) (each rest)
            end) dirs)
  end.
End TreeInduction.

Section Calls.
Context {St : Type} (fn : string → visit → St → St * option error).

Lemma runEvents_app (evs1 evs2 : list (string * visit)) (st : St) :
  runEvents fn (evs1 ++ evs2) st =
    match runEvents fn evs1 st with
    | (st', Some err) => (st', Some err)
    | (st', None) => runEvents fn evs2 st'
    end.
Proof.
  revert st. induction evs1 as [|[path v] evs1 IH]; intros st; simpl; [done|].
  destruct (fn path v st) as [st' [err|]]; [done|]. apply IH.
Qed.

(** A walk calls its function along [events], up to the first error. *)
Lemma walkDir_events (t : Tree) :
  ∀ path name st, walkDir fn path name t st = runEvents fn (events path name t) st.
Proof.
  induction t as [|readErr dirs IH] using Tree_ind'; intros path name st.
  - simpl. by destruct (fn path _ st) as [st1 [err|]].
  - cbn [walkDir events runEvents].
    destruct (fn path _ st) as [st1 [err|]]; [done|].
    rewrite runEvents_app.
    assert (Hloop : ∀ s,
      (fix loop (ds : list (string * Tree)) (s : St) : St * option error :=
         match ds with
         | [] => (s, None)
         | (name1, t1) :: rest =>
             match walkDir fn (Join [path; name1]) name1 t1 s with
             | (s', Some err) => (s', Some err)
             | (s', None) => loop rest s'
             end
         end) dirs s =
      runEvents fn
        ((fix each (ds : list (string * Tree)) : list (string * visit) :=
            match ds with
            | [] => []
            | (name1, t1) :: rest => events (Join [path; name1]) name1 t1 ++ each rest
            end) dirs) s).
    { induction IH as [|[name1 t1] rest Ht1 _ IHrest]; intros s; [done|].
      simpl in Ht1. rewrite runEvents_app, <- Ht1.
      destruct (walkDir fn _ name1 t1 s) as [s' [err|]]; [done|]. apply IHrest. }
    destruct readErr as [e|]; cbn [runEvents].
    + destruct (fn path _ st1) as [st2 [err|]]; [done|]. apply Hloop.
    + apply Hloop.
Qed.

Lemma WalkDir_events (lstat : error + Tree) (root : string) (st : St) :
  WalkDir fn lstat root st = runEvents fn (walkEvents lstat root) st.
Proof.
  destruct lstat as [err|t]; simpl.
  - by destruct (fn root _ st) as [st' [e|]].
  - apply walkDir_events.
Qed.

End Calls.

Lemma allVisits_app (evs1 evs2 : list (string * visit)) :
  allVisits (evs1 ++ evs2) = allVisits evs1 ++ allVisits evs2.
Proof.
  induction evs1 as [|[path [d|d err]] evs1 IH]; simpl; [done| |done].
  by rewrite IH.
Qed.

Lemma allVisits_events (t : Tree) :
  ∀ path name, allVisits (events path name t) = nodes path name t.
Proof.
  induction t as [|readErr dirs IH] using Tree_ind'; intros path name; [done|].
  cbn [events nodes allVisits]. f_equal. rewrite allVisits_app.
  replace (allVisits match readErr with
                     | Some e => [(path, VisitErr (Some {| Name := name; IsDir := isDirectory (Directory readErr dirs) |}) e)]
                     | None => []
                     end) with (@nil (string * DirEntry)) by (by destruct readErr).
  simpl. induction IH as [|[name1 t1] rest Ht1 _ IHrest]; [done|].
  simpl in Ht1. by rewrite allVisits_app, Ht1, IHrest.
Qed.

(** ** The site builder *)

Section SiteBuilder.
Context {world : Site.World}.

(** What one call of the build function does to the build tree. *)
Lemma buildFn_Visit (path : string) (d : DirEntry) (fs fs' : Site.Files) :
  Site.buildFn path (Visit d) fs = (fs', None) →
  ∃ extra, fs' = fs ++ extra ∧
    map fst extra =
      if isMarkdownFile (path, d) then [Site.outputPath path] else [].
Proof.
  unfold Site.buildFn, isMarkdownFile. simpl.
  destruct (IsDir d); simpl.
  { intros [= <-]. exists []. by rewrite app_nil_r. }
  destruct (strings.HasSuffix path ".md"); simpl.
  2:{ intros [= <-]. exists []. by rewrite app_nil_r. }
  destruct (Site.os_MkdirAll _); [done|].
  destruct (Site.renderMarkdown path) as [err|html]; [done|].
  destruct (Rel (Dir path) Site.ContentPath) as [rel [err|]]; [done|].
  unfold Site.writePage. destruct (Site.os_Create _); [done|].
  destruct (Site.ExecuteTemplate _ _) as [out err]. intros [= <- ->].
  by exists [(Site.outputPath path, out)].
Qed.

Lemma runEvents_buildFn (evs : list (string * visit)) (fs fs' : Site.Files) :
  runEvents Site.buildFn evs fs = (fs', None) →
  map fst fs' =
    map fst fs ++ map Site.outputPath (map fst (List.filter isMarkdownFile (allVisits evs))).
Proof.
  revert fs. induction evs as [|[path [d|d err]] evs IH]; intros fs;
    cbn [runEvents allVisits List.filter].
  - intros [= <-]. simpl. by rewrite app_nil_r.
  - destruct (Site.buildFn path (Visit d) fs) as [fs1 [err|]] eqn:Hstep; [done|].
    intros Hrest. apply buildFn_Visit in Hstep as (extra & -> & Hextra).
    rewrite (IH _ Hrest), map_app, Hextra, <- app_assoc. f_equal.
    by destruct (isMarkdownFile (path, d)).
  - simpl. done.
Qed.

(** What one call of the sidebar function does to the items. *)
Lemma sidebarFn_Visit (root currentPath path : string) (d : DirEntry)
    (items : list Site.NavItem) :
  Site.sidebarFn root currentPath path (Visit d) items =
    (items ++
       if isCandidate (path, d)
       then (Site.sidebarFn root currentPath path (Visit d) []).1
       else [],
     None).
Proof.
  unfold Site.sidebarFn, isCandidate. simpl.
  destruct (IsDir d), (strings.Contains path Site.RootPage),
    (strings.HasSuffix path ".md"); simpl; by rewrite ?app_nil_r.
Qed.

Lemma runEvents_sidebarFn (root currentPath : string)
    (evs : list (string * visit)) (items : list Site.NavItem) :
  (runEvents (Site.sidebarFn root currentPath) evs items).1 =
    items ++
    concat (map (λ pd, (Site.sidebarFn root currentPath pd.1 (Visit pd.2) []).1)
                (List.filter isCandidate (visitedBeforeError evs))).
Proof.
  revert items. induction evs as [|[path [d|d err]] evs IH]; intros items.
  - simpl. by rewrite app_nil_r.
  - cbn [runEvents visitedBeforeError List.filter].
    rewrite sidebarFn_Visit, IH.
    destruct (isCandidate (path, d)); simpl; by rewrite <- ?app_assoc, ?app_nil_r.
  - simpl. by rewrite app_nil_r.
Qed.

(** C2, with [relRoot] as the code computes it, the path of the content
    root relative to the directory of the current page: the sidebar holds,
    in the order of the walk, one entry for each candidate file visited;
    its link is [rel] when [relRoot] is [.] and [relRoot] joined with [rel]
    otherwise, with the suffix [.md] removed and [.html] appended, and its
    title is the last element of the link before [.html] was appended. *)
Theorem generateSidebar_entries (root currentPath : string) :
  let relRoot := (Rel (Dir currentPath) root).1 in
  let entry := λ path : string,
    let rel := (Rel root path).1 in
    let link :=
      strings.TrimSuffix
        (if String.eqb relRoot "." then rel else Join [relRoot; rel]) ".md" in
    {| Site.NavTitle := Base link; Site.Link := link +:+ ".html" |} in
  Site.generateSidebar root currentPath =
    map entry
      (map fst (List.filter isCandidate
                  (visitedBeforeError (walkEvents (Site.os_Tree root) root)))).
Proof.
  intros relRoot entry. unfold Site.generateSidebar.
  rewrite WalkDir_events, runEvents_sidebarFn. simpl.
  induction (visitedBeforeError _) as [|[path d] l IH]; [done|].
  simpl. destruct (isCandidate (path, d)) eqn:Hc; [|done].
  simpl. rewrite IH. f_equal.
  unfold Site.sidebarFn, isCandidate in *. simpl in *.
  destruct (IsDir d), (strings.Contains path Site.RootPage),
    (strings.HasSuffix path ".md"); done.
Qed.

(** C3: a file whose path contains the name of the root page adds no entry
    to a sidebar, and every entry of a sidebar was made for a visited file
    whose path does not contain that name. *)
Theorem generateSidebar_excludes_root_page (root currentPath : string) :
  (∀ (path : string) (d : DirEntry) (items : list Site.NavItem),
     strings.Contains path Site.RootPage = true →
     Site.sidebarFn root currentPath path (Visit d) items = (items, None)) ∧
  (∀ item : Site.NavItem,
     item ∈ Site.generateSidebar root currentPath →
     ∃ (path : string) (d : DirEntry),
       (path, Visit d) ∈ walkEvents (Site.os_Tree root) root ∧
       strings.Contains path Site.RootPage = false ∧
       IsDir d = false ∧
       Site.sidebarFn root currentPath path (Visit d) [] = ([item], None)).
Proof.
  split.
  - intros path d items Hc. unfold Site.sidebarFn. rewrite Hc.
    by destruct (IsDir d).
  - intros item. unfold Site.generateSidebar.
    rewrite WalkDir_events, runEvents_sidebarFn. simpl.
    induction (walkEvents _ _) as [|[path [d|d err]] evs IH]; simpl.
    + by intros ?%elem_of_nil.
    + destruct (isCandidate (path, d)) eqn:Hc; simpl.
      * intros [Hin|Hin]%elem_of_app.
        -- exists path, d. split; [by left|].
           unfold isCandidate, Site.sidebarFn in *. simpl in *.
           destruct (IsDir d), (strings.Contains path Site.RootPage),
             (strings.HasSuffix path ".md"); try done.
           simpl in Hin. apply list_elem_of_singleton in Hin as ->. done.
        -- destruct (IH Hin) as (p & d' & Hp & H). exists p, d'.
           split; [by right|done].
      * intros Hin. destruct (IH Hin) as (p & d' & Hp & H). exists p, d'.
        split; [by right|done].
    + by intros ?%elem_of_nil.
Qed.

End SiteBuilder.

(** C2 as stated fails for a page below the content root: on the page
    [content/guide/intro.md] the links lead up to the content root
    ([..]), while the directory of the page relative to the content root
    ([guide]) would lead further down. *)
Lemma generateSidebar_links_lead_to_root :
  Site.generateSidebar (world := exampleWorld) "content" "content/guide/intro.md" =
    [{| Site.NavTitle := "intro"; Site.Link := "../guide/intro.html" |};
     {| Site.NavTitle := "top"; Site.Link := "../top.html" |}] ∧
  map (specSidebarLink "content" "content/guide/intro.md")
      ["content/guide/intro.md"; "content/top.md"] =
    ["guide/guide/intro.html"; "guide/top.html"] ∧
  map Site.Link
      (Site.generateSidebar (world := exampleWorld) "content" "content/guide/intro.md") ≠
    map (specSidebarLink "content" "content/guide/intro.md")
      ["content/guide/intro.md"; "content/top.md"].
Proof.
  split; [vm_compute; reflexivity|]. split; [vm_compute; reflexivity|].
  vm_compute. discriminate.
Qed.

(** ** Clean paths *)

Lemma splitSlash_cons (s : string) : ∃ h r, splitSlash s = h :: r.
Proof.
  induction s as [|c s (h & r & IH)]; simpl; [by eauto|].
  destruct (isSlash c); [by eauto|]. rewrite IH. eauto.
Qed.

Lemma splitSlash_app_slash (a b : string) :
  splitSlash (a +:+ "/" +:+ b) = splitSlash a ++ splitSlash b.
Proof.
  induction a as [|c a IH].
  - done.
  - rewrite str_app_cons. simpl. rewrite IH.
    destruct (isSlash c); [done|].
    by destruct (splitSlash_cons a) as (h & r & ->).
Qed.

Lemma Contains_slash_cons (c : ascii) (s : string) :
  strings.Contains (String c s) "/" = isSlash c || strings.Contains s "/".
Proof.
  unfold strings.Contains, isSlash. simpl.
  destruct (Ascii.eqb c "/"); [done|].
  by destruct (strings.Index s "/").
Qed.

Lemma splitSlash_noslash (n : string) :
  strings.Contains n "/" = false → splitSlash n = [n].
Proof.
  induction n as [|c n IH]; [done|].
  rewrite Contains_slash_cons. intros [Hc Hn]%orb_false_elim.
  simpl. by rewrite Hc, (IH Hn).
Qed.

Lemma Join_cons2 (e e' : string) (rest : list string) (sep : string) :
  strings.Join (e :: e' :: rest) sep = e +:+ sep +:+ strings.Join (e' :: rest) sep.
Proof. done. Qed.

Lemma Join_splitSlash (s : string) : strings.Join (splitSlash s) "/" = s.
Proof.
  induction s as [|c s IH]; [done|]. simpl.
  destruct (isSlash c) eqn:Hc.
  - apply Ascii.eqb_eq in Hc as ->.
    destruct (splitSlash_cons s) as (h & r & Hs). rewrite Hs in *.
    by rewrite Join_cons2, IH.
  - destruct (splitSlash_cons s) as (h & r & Hs). rewrite Hs in *.
    destruct r as [|h' r]; simpl in *; [by rewrite IH|].
    by rewrite <- IH.
Qed.

Lemma splitSlash_Join (l : list string) :
  l ≠ [] → Forall (λ n, strings.Contains n "/" = false) l →
  splitSlash (strings.Join l "/") = l.
Proof.
  induction l as [|e l IH]; [done|]. intros _ Hl.
  apply Forall_cons in Hl as [He Hl].
  destruct l as [|e' l]; [by apply splitSlash_noslash|].
  rewrite Join_cons2, splitSlash_app_slash, IH by done.
  by rewrite splitSlash_noslash.
Qed.

Lemma cleanStep_kept (rooted : bool) (out : list string) (e : string) :
  keptElem e = true → cleanStep rooted out e = e :: out.
Proof.
  unfold keptElem, cleanStep.
  destruct (String.eqb e ""), (String.eqb e "."), (String.eqb e ".."); done.
Qed.

Lemma fold_cleanStep_kept (rooted : bool) (elems out : list string) :
  forallb keptElem elems = true →
  fold_left (cleanStep rooted) elems out = rev elems ++ out.
Proof.
  revert out. induction elems as [|e elems IH]; intros out; [done|].
  simpl. intros [He Hs]%andb_prop.
  rewrite (cleanStep_kept _ _ _ He), (IH _ Hs), <- app_assoc. done.
Qed.

Lemma cleanPath_not_rooted (s : string) :
  cleanPath s = true → isEmpty s = false ∧ strings.HasPrefix s "/" = false.
Proof.
  unfold cleanPath. destruct s as [|c s]; [done|]. intros H. split; [done|].
  simpl in *. fold (isSlash c) in *. destruct (isSlash c); [done|done].
Qed.

(** [Clean] returns a clean relative path as it is. *)
Lemma Clean_cleanPath (s : string) : cleanPath s = true → Clean s = s.
Proof.
  intros Hs. destruct (cleanPath_not_rooted s Hs) as [Hne Hroot].
  unfold Clean. rewrite Hne, Hroot, (fold_cleanStep_kept _ _ _ Hs).
  rewrite app_nil_r, rev_involutive, Join_splitSlash. by rewrite Hne.
Qed.

Lemma cleanPath_app_slash (a b : string) :
  cleanPath (a +:+ "/" +:+ b) = cleanPath a && cleanPath b.
Proof. unfold cleanPath. by rewrite splitSlash_app_slash, forallb_app. Qed.

Lemma goodName_cleanPath (n : string) : goodName n = true → cleanPath n = true.
Proof.
  unfold goodName, cleanPath. intros [Hk Hs]%andb_prop.
  apply negb_true_iff in Hs. rewrite (splitSlash_noslash _ Hs). simpl.
  by rewrite Hk.
Qed.

(** Joining a clean path and a name appends the name. *)
Lemma Join_cleanPath (p n : string) :
  cleanPath p = true → goodName n = true →
  Join [p; n] = p +:+ "/" +:+ n ∧ cleanPath (p +:+ "/" +:+ n) = true.
Proof.
  intros Hp Hn. destruct (cleanPath_not_rooted p Hp) as [Hne _].
  assert (Hpn : cleanPath (p +:+ "/" +:+ n) = true).
  { by rewrite cleanPath_app_slash, Hp, goodName_cleanPath. }
  split; [|done]. simpl. rewrite Hne. by apply Clean_cleanPath.
Qed.

Lemma Join_cleanPath_str (p rel : string) :
  cleanPath p = true → cleanPath rel = true → Join [p; rel] = p +:+ "/" +:+ rel.
Proof.
  intros Hp Hrel. destruct (cleanPath_not_rooted p Hp) as [Hne _].
  simpl. rewrite Hne. apply Clean_cleanPath.
  by rewrite cleanPath_app_slash, Hp, Hrel.
Qed.

(** ** The loop of [Rel] ends within its fuel *)

Lemma cutSlash_length (s : string) :
  s ≠ "" → String.length (cutSlash s).2 < String.length s.
Proof.
  induction s as [|c s IH]; [done|]. intros _. simpl.
  destruct (isSlash c); simpl; [lia|].
  destruct s as [|c' s]; [simpl; lia|].
  specialize (IH ltac:(done)). destruct (cutSlash (String c' s)) as [h r].
  simpl in *. lia.
Qed.

Lemma relLoop_fuel (f1 f2 : nat) (bs ts : string) :
  String.length bs < f1 → String.length bs < f2 →
  relLoop f1 bs ts = relLoop f2 bs ts.
Proof.
  revert f2 bs ts. induction f1 as [|f1 IH]; intros [|f2] bs ts H1 H2; try lia.
  cbn [relLoop]. destruct (isEmpty bs || isEmpty ts) eqn:He; [done|].
  assert (Hbs : bs ≠ "") by (by destruct bs).
  pose proof (cutSlash_length bs Hbs) as Hlen.
  destruct (cutSlash bs) as [belem brest], (cutSlash ts) as [telem trest].
  destruct (negb (String.eqb telem belem)); [done|].
  simpl in Hlen. apply IH; lia.
Qed.

(** ** Suffixes *)

Lemma HasSuffix_app (a suffix : string) : strings.HasSuffix (a +:+ suffix) suffix = true.
Proof.
  unfold strings.HasSuffix. rewrite str_length_app.
  replace (String.length a + String.length suffix - String.length suffix)
    with (String.length a) by lia.
  rewrite dropS_app, String.eqb_refl, andb_true_r.
  apply Nat.leb_le. lia.
Qed.

Lemma TrimSuffix_app (a suffix : string) : strings.TrimSuffix (a +:+ suffix) suffix = a.
Proof.
  unfold strings.TrimSuffix. rewrite HasSuffix_app, str_length_app.
  replace (String.length a + String.length suffix - String.length suffix)
    with (String.length a) by lia.
  apply takeS_app.
Qed.

Lemma HasSuffix_split (s suffix : string) :
  strings.HasSuffix s suffix = true → s = strings.TrimSuffix s suffix +:+ suffix.
Proof.
  intros H. unfold strings.TrimSuffix. rewrite H. unfold strings.HasSuffix in H.
  apply andb_prop in H as [_ H%String.eqb_eq].
  pose proof (takeS_dropS (String.length s - String.length suffix) s) as Hs.
  by rewrite H in Hs.
Qed.

Lemma HasSuffix_app_ge (a b suffix : string) :
  String.length suffix ≤ String.length b →
  strings.HasSuffix (a +:+ b) suffix = strings.HasSuffix b suffix.
Proof.
  intros Hlen. unfold strings.HasSuffix. rewrite str_length_app.
  replace (String.length a + String.length b - String.length suffix)
    with (String.length a + (String.length b - String.length suffix)) by lia.
  rewrite <- dropS_dropS, dropS_app. f_equal.
  apply Nat.leb_le in Hlen as Hb. rewrite Hb. apply Nat.leb_le. lia.
Qed.

(** The suffix [.md] of a path below [content] lies in the relative part. *)
Lemma HasSuffix_content (rel : string) :
  strings.HasSuffix ("content" +:+ "/" +:+ rel) ".md" = true →
  strings.HasSuffix rel ".md" = true.
Proof.
  destruct rel as [|x [|y [|z rest]]].
  - by vm_compute.
  - unfold strings.HasSuffix. simpl. done.
  - unfold strings.HasSuffix. simpl. done.
  - change ("content" +:+ "/" +:+ String x (String y (String z rest)))
      with ("content/" +:+ String x (String y (String z rest))).
    rewrite HasSuffix_app_ge; [done|]. simpl. lia.
Qed.

(** ** Output paths *)

Lemma Rel_content (rel : string) :
  cleanPath rel = true →
  Rel Site.ContentPath ("content" +:+ "/" +:+ rel) = (rel, None).
Proof.
  intros Hrel. unfold Rel, Site.ContentPath.
  assert (Hc : cleanPath "content" = true) by done.
  rewrite (Clean_cleanPath "content" Hc).
  rewrite (Clean_cleanPath ("content" +:+ "/" +:+ rel))
    by (by rewrite cleanPath_app_slash, Hc, Hrel).
  destruct (cleanPath_not_rooted rel Hrel) as [Hne _].
  destruct rel as [|c rel]; [done|]. by vm_compute.
Qed.

Lemma splitSlash_snoc (u : string) :
  ∃ init l, splitSlash u = init ++ [l] ∧
    ∀ x, strings.Contains x "/" = false → splitSlash (u +:+ x) = init ++ [l +:+ x].
Proof.
  induction u as [|c u (init & l & Hu & Hux)].
  - exists [], "". split; [done|]. intros x Hx. by apply splitSlash_noslash.
  - destruct (isSlash c) eqn:Hc.
    + exists ("" :: init), l. split.
      * simpl. by rewrite Hc, Hu.
      * intros x Hx. rewrite str_app_cons. simpl. by rewrite Hc, (Hux x Hx).
    + destruct init as [|h init].
      * exists [], (String c l). split.
        -- simpl. by rewrite Hc, Hu.
        -- intros x Hx. rewrite str_app_cons. simpl. by rewrite Hc, (Hux x Hx).
      * exists (String c h :: init), l. split.
        -- simpl. by rewrite Hc, Hu.
        -- intros x Hx. rewrite str_app_cons. simpl. by rewrite Hc, (Hux x Hx).
Qed.

Lemma keptElem_html (l : string) : keptElem (l +:+ ".html") = true.
Proof.
  unfold keptElem.
  destruct l as [|a [|b [|c l]]]; rewrite ?str_app_cons; simpl; try done;
    destruct (Ascii.eqb a "."); try done; destruct (Ascii.eqb b "."); done.
Qed.

Lemma cleanPath_html (u : string) :
  cleanPath (u +:+ ".md") = true → cleanPath (u +:+ ".html") = true.
Proof.
  unfold cleanPath. destruct (splitSlash_snoc u) as (init & l & _ & Hx).
  rewrite (Hx ".md"), (Hx ".html") by done.
  rewrite !forallb_app. simpl. intros [-> _]%andb_prop.
  by rewrite keptElem_html.
Qed.

(** The output path mirrors the source path: below the build root, the
    same relative path with [.html] in place of [.md]. *)
Lemma outputPath_mirror (u : string) :
  cleanPath (u +:+ ".md") = true →
  Site.outputPath ("content" +:+ "/" +:+ u +:+ ".md") = "build" +:+ "/" +:+ u +:+ ".html".
Proof.
  intros Hu. unfold Site.outputPath. rewrite Rel_content by done.
  cbn [fst]. rewrite TrimSuffix_app.
  apply Join_cleanPath_str; [done|]. by apply cleanPath_html.
Qed.

(** ** Paths in a well-named tree *)

Lemma wellNamed_Directory (readErr : option error) (dirs : list (string * Tree)) :
  wellNamed (Directory readErr dirs) ↔
  NoDup (map fst dirs) ∧
  Forall (λ nt, goodName nt.1 = true ∧ wellNamed nt.2) dirs.
Proof.
  cbn [wellNamed]. apply and_iff_compat_l.
  induction dirs as [|[name1 t1] rest IH].
  - split; [by constructor|done].
  - rewrite Forall_cons, <- IH. simpl. tauto.
Qed.

Lemma Join_nest (p name1 : string) (ns : list string) :
  strings.Join ((p +:+ "/" +:+ name1) :: ns) "/" = strings.Join (p :: name1 :: ns) "/".
Proof.
  destruct ns as [|e ns]; [done|].
  by rewrite !Join_cons2, !str_app_assoc.
Qed.

(** The paths of the nodes are the root path followed by their names. *)
Lemma nodes_paths (t : Tree) :
  wellNamed t → ∀ p name, cleanPath p = true →
  map fst (nodes p name t) = map (λ ns, strings.Join (p :: ns) "/") (relPaths t).
Proof.
  induction t as [|readErr dirs IH] using Tree_ind'; intros Hwell p name Hp; [done|].
  apply wellNamed_Directory in Hwell as [_ Hdirs].
  cbn [nodes relPaths map fst]. f_equal.
  induction dirs as [|[name1 t1] rest IHrest]; [done|].
  apply Forall_cons in IH as [Ht1 IH]. apply Forall_cons in Hdirs as [[Hn1 Hw1] Hdirs].
  simpl in Ht1, Hn1, Hw1.
  destruct (Join_cleanPath p name1 Hp Hn1) as [Hjoin Hclean].
  rewrite !map_app, (IHrest IH Hdirs), Hjoin, (Ht1 Hw1 _ _ Hclean), map_map.
  f_equal. apply map_ext. intros ns. apply Join_nest.
Qed.

Lemma relPaths_good (t : Tree) :
  wellNamed t → Forall (Forall (λ n, goodName n = true)) (relPaths t).
Proof.
  induction t as [|readErr dirs IH] using Tree_ind'; intros Hwell.
  - by repeat constructor.
  - apply wellNamed_Directory in Hwell as [_ Hdirs].
    cbn [relPaths]. constructor; [done|].
    induction dirs as [|[name1 t1] rest IHrest]; [done|].
    apply Forall_cons in IH as [Ht1 IH].
    apply Forall_cons in Hdirs as [[Hn1 Hw1] Hdirs]. simpl in Ht1, Hn1, Hw1.
    apply Forall_app. split; [|by apply IHrest].
    apply Forall_forall. intros ns (ns' & -> & Hin)%list_elem_of_fmap.
    constructor; [done|].
    by apply (proj1 (Forall_forall _ _) (Ht1 Hw1)).
Qed.

Lemma relPaths_NoDup (t : Tree) : wellNamed t → NoDup (relPaths t).
Proof.
  induction t as [|readErr dirs IH] using Tree_ind'; intros Hwell.
  - apply NoDup_singleton.
  - apply wellNamed_Directory in Hwell as [Hnames Hdirs].
    cbn [relPaths]. apply NoDup_cons. split.
    + clear. induction dirs as [|[name1 t1] rest IHrest]; [by apply not_elem_of_nil|].
      intros [Hin|Hin]%elem_of_app; [|done].
      by apply list_elem_of_fmap in Hin as (ns & ? & _).
    + induction dirs as [|[name1 t1] rest IHrest]; [by constructor|].
      apply Forall_cons in IH as [Ht1 IH].
      apply Forall_cons in Hdirs as [[Hn1 Hw1] Hdirs]. simpl in Ht1, Hn1, Hw1.
      simpl in Hnames. apply NoDup_cons in Hnames as [Hfresh Hnames].
      apply NoDup_app. split; [|split; [|by apply IHrest]].
      * apply NoDup_fmap_2; [|by apply Ht1]. by intros ?? [=].
      * intros ns (ns' & -> & _)%list_elem_of_fmap Hin. apply Hfresh.
        clear -Hin. induction rest as [|[name2 t2] rest IHrest];
          [by apply elem_of_nil in Hin|].
        apply elem_of_app in Hin as [Hin|Hin].
        -- apply list_elem_of_fmap in Hin as (ns & [= -> _] & _). by left.
        -- right. by apply IHrest.
Qed.

Lemma cleanPath_Join (ns : list string) :
  ns ≠ [] → Forall (λ n, goodName n = true) ns →
  cleanPath (strings.Join ns "/") = true.
Proof.
  intros Hne Hgood. unfold cleanPath. rewrite splitSlash_Join; [|done|].
  - apply forallb_forall. intros n Hn%list_elem_of_In.
    apply (proj1 (Forall_forall _ _) Hgood) in Hn.
    by apply andb_prop in Hn as [? _].
  - eapply Forall_impl; [done|]. intros n [_ Hn%negb_true_iff]%andb_prop. done.
Qed.

Lemma Join_names_inj (p : string) (ns ns' : list string) :
  Forall (λ n, goodName n = true) ns → Forall (λ n, goodName n = true) ns' →
  strings.Join (p :: ns) "/" = strings.Join (p :: ns') "/" → ns = ns'.
Proof.
  assert (Hlen : ∀ e l, p ≠ strings.Join (p :: e :: l) "/").
  { intros e l Heq%(f_equal String.length).
    rewrite Join_cons2, !str_length_app in Heq. simpl in Heq. lia. }
  intros Hns Hns'. destruct ns as [|e ns], ns' as [|e' ns']; try done.
  - intros Heq. by apply Hlen in Heq.
  - intros Heq. symmetry in Heq. by apply Hlen in Heq.
  - rewrite !Join_cons2. intros Heq%(inj (String.app p)).
    apply (inj (String.app "/")) in Heq. apply (f_equal splitSlash) in Heq.
    rewrite !splitSlash_Join in Heq; try done;
      (eapply Forall_impl; [done|]);
      by intros n [_ Hn%negb_true_iff]%andb_prop.
Qed.

Lemma str_app_inj_r (a b c : string) : a +:+ c = b +:+ c → a = b.
Proof.
  revert b. induction a as [|x a IH]; intros [|y b]; rewrite ?str_app_cons.
  - done.
  - intros Heq%(f_equal String.length). rewrite str_app_nil_l in Heq.
    simpl in Heq. rewrite str_length_app in Heq. lia.
  - intros Heq%(f_equal String.length). rewrite str_app_nil_l in Heq.
    simpl in Heq. rewrite str_length_app in Heq. lia.
  - intros [= -> Heq]. f_equal. by apply IH.
Qed.

(** ** One output file for each markdown file *)

Lemma nodes_NoDup (t : Tree) (p name : string) :
  wellNamed t → cleanPath p = true → NoDup (map fst (nodes p name t)).
Proof.
  intros Hwell Hp. rewrite nodes_paths by done.
  apply NoDup_fmap_2_strong; [|by apply relPaths_NoDup].
  intros ns ns' Hns Hns'. apply Join_names_inj.
  - by apply (proj1 (Forall_forall _ _) (relPaths_good t Hwell)).
  - by apply (proj1 (Forall_forall _ _) (relPaths_good t Hwell)).
Qed.

Lemma filter_fst_NoDup {A B : Type} (f : A * B → bool) (l : list (A * B)) :
  NoDup (map fst l) → NoDup (map fst (List.filter f l)).
Proof.
  induction l as [|x l IH]; [done|]. simpl.
  intros [Hx Hl]%NoDup_cons. destruct (f x); [|by apply IH].
  simpl. apply NoDup_cons. split; [|by apply IH].
  intros (y & Hy & Hin)%list_elem_of_fmap. apply Hx.
  apply list_elem_of_fmap. exists y. split; [done|].
  apply list_elem_of_In in Hin. apply filter_In in Hin as [Hin _].
  by apply list_elem_of_In.
Qed.

(** A markdown file of a well-named tree lies below the content root at a
    clean relative path that ends in [.md]. *)
Lemma markdownFiles_shape (t : Tree) (mdPath : string) :
  wellNamed t → mdPath ∈ markdownFiles Site.ContentPath t →
  ∃ u, mdPath = "content" +:+ "/" +:+ u +:+ ".md" ∧ cleanPath (u +:+ ".md") = true.
Proof.
  intros Hwell ([p d] & -> & Hin)%list_elem_of_fmap.
  apply list_elem_of_In, filter_In in Hin as [Hin Hmd].
  apply andb_prop in Hmd as [_ Hmd]. simpl in Hmd |- *.
  assert (Hp : p ∈ map fst (nodes Site.ContentPath (Base Site.ContentPath) t)).
  { apply list_elem_of_fmap. exists (p, d). split; [done|]. by apply list_elem_of_In. }
  rewrite nodes_paths in Hp by done.
  apply list_elem_of_fmap in Hp as (ns & -> & Hns).
  apply (proj1 (Forall_forall _ _) (relPaths_good t Hwell)) in Hns.
  destruct ns as [|e ns]; [done|].
  change (strings.Join (Site.ContentPath :: e :: ns) "/")
    with ("content" +:+ "/" +:+ strings.Join (e :: ns) "/") in *.
  apply HasSuffix_content in Hmd. pose proof (HasSuffix_split _ _ Hmd) as Hsplit.
  exists (strings.TrimSuffix (strings.Join (e :: ns) "/") ".md").
  rewrite <- Hsplit. split; [done|]. by apply cleanPath_Join.
Qed.

Lemma outputPath_NoDup (t : Tree) :
  wellNamed t → NoDup (map Site.outputPath (markdownFiles Site.ContentPath t)).
Proof.
  intros Hwell. apply NoDup_fmap_2_strong.
  - intros p1 p2 Hp1 Hp2.
    destruct (markdownFiles_shape t p1 Hwell Hp1) as (u1 & -> & Hu1).
    destruct (markdownFiles_shape t p2 Hwell Hp2) as (u2 & -> & Hu2).
    rewrite !outputPath_mirror by done. intros Heq.
    apply (inj (String.app "build")), (inj (String.app "/")), str_app_inj_r in Heq.
    by rewrite Heq.
  - apply filter_fst_NoDup, nodes_NoDup; done.
Qed.

(** C1: when the build succeeds, the files it created are, one for one
    and in the order of the walk, the markdown files under the content
    root, each at the path made of its path relative to the content root,
    without the suffix [.md], with [.html] appended, under the build
    root. In a well-named tree these output paths mirror the source paths
    and no two markdown files share one. *)
Theorem buildPages_one_output_per_markdown_file {world : Site.World}
    (t : Tree) (files : Site.Files) :
  Site.os_Tree Site.ContentPath = inr t →
  Site.buildPages [] = (files, None) →
  map fst files =
    map (λ mdPath,
           Join [Site.BuildPath;
                 strings.TrimSuffix (Rel Site.ContentPath mdPath).1 ".md" +:+ ".html"])
        (markdownFiles Site.ContentPath t) ∧
  (wellNamed t →
   NoDup (map fst files) ∧
   ∀ mdPath, mdPath ∈ markdownFiles Site.ContentPath t →
     ∃ u, mdPath = "content" +:+ "/" +:+ u +:+ ".md" ∧
       Site.outputPath mdPath = "build" +:+ "/" +:+ u +:+ ".html").
Proof.
  intros Htree Hbuild. unfold Site.buildPages in Hbuild.
  rewrite WalkDir_events, Htree in Hbuild.
  apply runEvents_buildFn in Hbuild. simpl in Hbuild.
  rewrite allVisits_events in Hbuild.
  change (map fst files = map Site.outputPath (markdownFiles Site.ContentPath t))
    in Hbuild.
  split; [done|]. intros Hwell. split.
  - rewrite Hbuild. by apply outputPath_NoDup.
  - intros mdPath Hmd.
    destruct (markdownFiles_shape t mdPath Hwell Hmd) as (u & -> & Hu).
    exists u. split; [done|]. by apply outputPath_mirror.
Qed.

Lemma exampleTree_wellNamed : wellNamed exampleTree.
Proof.
  simpl. repeat split; try done; by apply (bool_decide_unpack _).
Qed.

Lemma buildPages_one_output_per_markdown_file_witness :
  map fst (Site.buildPages (world := exampleWorld) []).1 =
    map (λ mdPath,
           Join [Site.BuildPath;
                 strings.TrimSuffix (Rel Site.ContentPath mdPath).1 ".md" +:+ ".html"])
        (markdownFiles Site.ContentPath exampleTree) ∧
  NoDup (map fst (Site.buildPages (world := exampleWorld) []).1).
Proof.
  destruct (@buildPages_one_output_per_markdown_file exampleWorld exampleTree
              (Site.buildPages (world := exampleWorld) []).1) as [Hfiles Hwell].
  - reflexivity.
  - vm_compute. reflexivity.
  - split; [exact Hfiles|]. exact (proj1 (Hwell exampleTree_wellNamed)).
Defined.

(** * Further properties of the programs *)

(** ** The handlers on every request *)

Lemma parseFrontmatter_Returns `{!GoRuntime} (md : string) :
  ∃ fm, Remote.parseFrontmatter md = Returns fm.
Proof.
  unfold Remote.parseFrontmatter.
  destruct (negb _); [by eexists|].
  destruct (Nat.ltb_spec (length (strings.SplitN (strings.TrimSpace md) "---" 3)) 3)
    as [Hlt|Hge]; [by eexists|].
  destruct (_ !! 1) eqn:Hp1.
  - destruct (yaml_Unmarshal _) as [m [e|]]; by eexists.
  - apply lookup_ge_None in Hp1. lia.
Qed.

(** What [http.Error] leaves in a writer that has sent nothing yet. *)
Lemma http_Error_response (w : ResponseWriter) (msg : string) (code : nat) :
  Status w = None →
  Status (http_Error w msg code) = Some code ∧
  Header (http_Error w msg code) !! "Content-Type" = Some "text/plain; charset=utf-8" ∧
  Body (http_Error w msg code) = Body w +:+ msg +:+ newline.
Proof.
  destruct w as [h st b]. simpl. intros ->.
  unfold http_Error, Write, WriteHeader, Header_Set, Header_Del. simpl.
  split; [done|]. split; [|done].
  rewrite lookup_insert_ne by done. by rewrite lookup_insert_eq.
Qed.

Lemma http_Error_Body (w : ResponseWriter) (msg : string) (code : nat) :
  Body (http_Error w msg code) = Body w +:+ msg +:+ newline.
Proof.
  destruct w as [h [c|] b]; reflexivity.
Qed.

(** What the encoder leaves in a writer that has sent nothing yet. *)
Lemma Encode_response `{!GoRuntime} (w : ResponseWriter)
    (fm : option (gmap string string)) :
  Status w = None →
  let w' := Encode (Header_Set "Content-Type" "application/json" w) fm in
  Status w' = Some 200 ∧
  Header w' !! "Content-Type" = Some "application/json" ∧
  Body w' = Body w +:+ json_Marshal fm +:+ newline.
Proof.
  destruct w as [h st b]. simpl. intros ->.
  unfold Encode, Write, WriteHeader, Header_Set. simpl.
  by rewrite lookup_insert_eq.
Qed.


(** X2: the local-read handler answers every request, and on a writer that
    has sent nothing yet the answer is status 200 with the JSON content
    type and the encoded map, or status 404 as plain text with [not found]
    or [file not found]; it never answers 500 and never prints. *)
Theorem local_apiHandler_answers `{!GoRuntime, !Local.Disk}
    (w : ResponseWriter) (r : Request) :
  Status w = None →
  ∃ w' : ResponseWriter,
    Local.apiHandler w r = Returns (w', "") ∧
    ((Status w' = Some 200 ∧
      Header w' !! "Content-Type" = Some "application/json" ∧
      ∃ m, Body w' = Body w +:+ json_Marshal (Some m) +:+ newline) ∨
     (Status w' = Some 404 ∧
      Header w' !! "Content-Type" = Some "text/plain; charset=utf-8" ∧
      (Body w' = Body w +:+ "not found" +:+ newline ∨
       Body w' = Body w +:+ "file not found" +:+ newline))).
Proof.
  intros Hw. unfold Local.apiHandler.
  destruct (isEmpty _).
  { eexists. split; [done|]. right.
    destruct (http_Error_response w "not found" 404 Hw) as (? & ? & ?). eauto. }
  destruct (Local.os_ReadFile _) as [err|data].
  - eexists. split; [done|]. right.
    destruct (http_Error_response w "file not found" 404 Hw) as (? & ? & ?). eauto.
  - change (Local.parseFrontmatter data) with (Remote.parseFrontmatter data).
    destruct (parseFrontmatter_Returns data) as [fm ->].
    eexists. split; [done|]. left.
    destruct fm as [m|].
    + destruct (Encode_response w (Some m) Hw) as (? & ? & ?). eauto 10.
    + destruct (Encode_response w (Some ∅) Hw) as (? & ? & ?). eauto 10.
Qed.


Lemma local_apiHandler_answers_witness :
  ∃ w' : ResponseWriter,
    Local.apiHandler (rt := asciiRuntime) (disk := guideDisk)
      newResponseWriter (getRequest "/api/guide") = Returns (w', "") ∧
    Status w' = Some 200.
Proof.
  destruct (@local_apiHandler_answers asciiRuntime guideDisk newResponseWriter
              (getRequest "/api/guide") eq_refl) as (w' & Hret & _).
  exists w'. split; [exact Hret|].
  vm_compute in Hret. injection Hret as <-. reflexivity.
Defined.

(** X3: the remote-fetch handler takes every upstream status other than
    404 for success: whatever the status code, the body is searched for
    frontmatter and the answer is the JSON encoding of what was found, the
    empty object when there is none. *)
Theorem remote_apiHandler_serves_other_statuses `{!GoRuntime, !Remote.Net}
    (w : ResponseWriter) (r : Request) (code : nat) (body : string) :
  let path := strings.TrimPrefix (URL_Path r) "/api/" in
  let branch := Values_Get (URL_Query r) "branch" in
  let branch' := if isEmpty branch then "main" else branch in
  let url := Remote.Sprintf_REPO_URL branch' (path +:+ ".md") in
  path ≠ "" →
  Remote.fetch_NewRequest "GET" url = None →
  Remote.fetch_Do url Remote.USER_AGENT = inr (code, body) →
  code ≠ 404 →
  ∃ fm, Remote.parseFrontmatter body = Returns fm ∧
    Remote.apiHandler w r =
      Returns (Encode (Header_Set "Content-Type" "application/json" w)
                 (Some (default ∅ fm)), "").
Proof.
  intros path branch branch' url Hpath Hreq Hdo Hcode.
  destruct (parseFrontmatter_Returns body) as [fm Hfm]. exists fm. split; [done|].
  unfold Remote.apiHandler. fold path. fold branch. fold branch'.
  rewrite (isEmpty_false _ Hpath). unfold Remote.fetchWikiPage. fold url.
  rewrite Hreq, Hdo.
  apply Nat.eqb_neq in Hcode. unfold Remote.StatusNotFound. rewrite Hcode, Hfm.
  by destruct fm.
Qed.

Lemma remote_apiHandler_serves_other_statuses_witness :
  Remote.apiHandler (rt := asciiRuntime) (net := brokenNet)
      newResponseWriter (getRequest "/api/guide") =
    Returns (Encode (rt := asciiRuntime)
               (Header_Set "Content-Type" "application/json" newResponseWriter)
               (Some ∅), "").
Proof.
  destruct (@remote_apiHandler_serves_other_statuses asciiRuntime brokenNet
              newResponseWriter (getRequest "/api/guide") 500
              "Internal Server Error") as (fm & Hfm & Hret).
  - vm_compute. discriminate.
  - reflexivity.
  - reflexivity.
  - lia.
  - vm_compute in Hfm. injection Hfm as <-. exact Hret.
Defined.

(** X4: the remote-fetch handler consults the network for one resource
    only: the page [<path>.md] under [content] on the branch the query
    names ([main] when it names none), requested with GET and the fixed
    user agent. Two networks that agree on this request get the same
    answer. *)
Theorem remote_apiHandler_one_request `{!GoRuntime} (net1 net2 : Remote.Net)
    (w : ResponseWriter) (r : Request) :
  let path := strings.TrimPrefix (URL_Path r) "/api/" in
  let branch := Values_Get (URL_Query r) "branch" in
  let branch' := if isEmpty branch then "main" else branch in
  let url := Remote.REPO_URL_prefix +:+ branch' +:+ "/content/" +:+ path +:+ ".md" in
  Remote.fetch_NewRequest (Net := net1) "GET" url =
    Remote.fetch_NewRequest (Net := net2) "GET" url →
  Remote.fetch_Do (Net := net1) url Remote.USER_AGENT =
    Remote.fetch_Do (Net := net2) url Remote.USER_AGENT →
  Remote.apiHandler (net := net1) w r = Remote.apiHandler (net := net2) w r.
Proof.
  intros path branch branch' url Hreq Hdo.
  unfold Remote.apiHandler, Remote.fetchWikiPage, Remote.Sprintf_REPO_URL.
  fold path. fold branch. fold branch'. fold url.
  by rewrite Hreq, Hdo.
Qed.

Lemma remote_apiHandler_one_request_witness :
  Remote.apiHandler (rt := asciiRuntime) (net := plainNet)
      newResponseWriter (getRequest "/api/guide") =
  Remote.apiHandler (rt := asciiRuntime) (net := guideNet)
      newResponseWriter (getRequest "/api/guide").
Proof.
  apply (@remote_apiHandler_one_request asciiRuntime plainNet guideNet
           newResponseWriter (getRequest "/api/guide")).
  - reflexivity.
  - vm_compute. reflexivity.
Defined.

(** X5: the local-read handler consults the disk for one file only,
    [content/<path>.md]: two disks that agree on it get the same answer. *)
Theorem local_apiHandler_one_file `{!GoRuntime} (disk1 disk2 : Local.Disk)
    (w : ResponseWriter) (r : Request) :
  let path := strings.TrimPrefix (URL_Path r) "/api/" in
  Local.os_ReadFile (Disk := disk1) ("content/" +:+ path +:+ ".md") =
    Local.os_ReadFile (Disk := disk2) ("content/" +:+ path +:+ ".md") →
  Local.apiHandler (disk := disk1) w r = Local.apiHandler (disk := disk2) w r.
Proof.
  intros path Hread. unfold Local.apiHandler. fold path. by rewrite Hread.
Qed.

Lemma local_apiHandler_one_file_witness :
  Local.apiHandler (rt := asciiRuntime) (disk := plainDisk)
      newResponseWriter (getRequest "/api/guide") =
  Local.apiHandler (rt := asciiRuntime) (disk := guideDisk)
      newResponseWriter (getRequest "/api/guide").
Proof.
  apply (@local_apiHandler_one_file asciiRuntime plainDisk guideDisk
           newResponseWriter (getRequest "/api/guide")).
  vm_compute. reflexivity.
Defined.

Lemma TrimPrefix_api_empty (p : string) :
  strings.TrimPrefix p "/api/" = "" ↔ p = "" ∨ p = "/api/".
Proof.
  split.
  - unfold strings.TrimPrefix. destruct (strings.HasPrefix p "/api/") eqn:Hpre.
    + intros Hdrop. apply HasPrefix_split in Hpre. rewrite Hdrop in Hpre. by right.
    + by left.
  - by intros [-> | ->].
Qed.

(** X6: both handlers answer [not found] with status 404, whatever the
    network or the disk holds, exactly when the path of the URL is empty
    or is [/api/]; on every other path the answer depends on what is
    fetched or read. *)
Theorem apiHandler_not_found_iff `{!GoRuntime} (w : ResponseWriter) (r : Request) :
  ((URL_Path r = "" ∨ URL_Path r = "/api/") ↔
   ∀ net : Remote.Net,
     Remote.apiHandler w r = Returns (http_Error w "not found" 404, "")) ∧
  ((URL_Path r = "" ∨ URL_Path r = "/api/") ↔
   ∀ disk : Local.Disk,
     Local.apiHandler w r = Returns (http_Error w "not found" 404, "")).
Proof.
  split; split.
  - intros Hp%TrimPrefix_api_empty net. unfold Remote.apiHandler. by rewrite Hp.
  - intros Hall. apply TrimPrefix_api_empty.
    destruct (decide (strings.TrimPrefix (URL_Path r) "/api/" = "")) as [|Hne]; [done|].
    specialize (Hall downNet).
    rewrite (remote_apiHandler_error (H0 := downNet) w r
               "fetch failed: connection refused" Hne) in Hall; [|done].
    simpl in Hall. discriminate.
  - intros Hp%TrimPrefix_api_empty disk. unfold Local.apiHandler. by rewrite Hp.
  - intros Hall. apply TrimPrefix_api_empty.
    destruct (decide (strings.TrimPrefix (URL_Path r) "/api/" = "")) as [|Hne]; [done|].
    specialize (Hall deniedDisk).
    rewrite (local_apiHandler_error (H0 := deniedDisk) w r _ Hne eq_refl) in Hall.
    assert (Hbody : Body (http_Error w "file not found" 404) =
                    Body (http_Error w "not found" 404)) by congruence.
    clear Hall. rename Hbody into Hall.
    rewrite !http_Error_Body in Hall.
    apply (inj (String.app (Body w))) in Hall. discriminate.
Qed.

(** ** The frontmatter block *)

Lemma SplitN_delimited (rest : string) :
  strings.SplitN ("---" +:+ rest) "---" 3 =
    match strings.Index rest "---" with
    | None => [""; rest]
    | Some j => [""; takeS j rest; dropS (j + 3) rest]
    end.
Proof.
  unfold strings.SplitN.
  change ("---" +:+ rest) with (String "-" (String "-" (String "-" rest))).
  cbn [Z.eqb Z.ltb Z.compare Nat.add String.length Nat.ltb Nat.leb Nat.sub].
  change (Z.to_nat 3) with 3. cbn [Nat.sub strings.splitLoop].
  rewrite Index_prefix by done.
  cbn [takeS dropS Nat.add String.length strings.splitLoop].
  by destruct (strings.Index rest "---").
Qed.

(** X7: when the trimmed page starts with the delimiter, the frontmatter
    ends at the first later instance of the delimiter, and what follows it
    is ignored: without such an instance the result is the nil map,
    otherwise the YAML engine is applied to the trimmed bytes between the
    two, and the result is the map it produced, or the nil map when it
    reports an error. *)
Theorem parseFrontmatter_block `{!GoRuntime} (md rest : string) :
  strings.TrimSpace md = "---" +:+ rest →
  Remote.parseFrontmatter md =
    match strings.Index rest "---" with
    | None => Returns None
    | Some j =>
        match yaml_Unmarshal (strings.TrimSpace (takeS j rest)) with
        | (_, Some _) => Returns None
        | (fm, None) => Returns fm
        end
    end.
Proof.
  intros Htrim. unfold Remote.parseFrontmatter.
  rewrite Htrim, HasPrefix_app, SplitN_delimited.
  by destruct (strings.Index rest "---").
Qed.

Lemma parseFrontmatter_block_witness :
  Remote.parseFrontmatter (rt := asciiRuntime) helloPage =
    Returns (Some {[ "title" := "Hello" ]}).
Proof.
  rewrite (@parseFrontmatter_block asciiRuntime helloPage
             (newline +:+ "title: Hello" +:+ newline +:+ "---" +:+ newline +:+ "Body")).
  - vm_compute. reflexivity.
  - vm_compute. reflexivity.
Defined.

Lemma asciiSpace_ascii (c : ascii) :
  strings.asciiSpace c = true → (strings.RuneSelf <=? N_of_ascii c)%N = false.
Proof.
  destruct c as [[] [] [] [] [] [] [] []]; done.
Qed.

Lemma trimStart_blank `{!GoRuntime} (ws s : string) :
  blank ws = true → strings.trimStart (ws +:+ s) = strings.trimStart s.
Proof.
  induction ws as [|c ws IH]; [done|].
  cbn [blank]. intros [Hc Hws]%andb_prop.
  rewrite str_app_cons. cbn [strings.trimStart].
  by rewrite (asciiSpace_ascii c Hc), Hc, IH.
Qed.

(** X8: ASCII white space in front of a page does not change its
    frontmatter. *)
Theorem parseFrontmatter_leading_space `{!GoRuntime} (ws md : string) :
  blank ws = true →
  Remote.parseFrontmatter (ws +:+ md) = Remote.parseFrontmatter md ∧
  Local.parseFrontmatter (ws +:+ md) = Local.parseFrontmatter md.
Proof.
  intros Hws.
  assert (Htrim : strings.TrimSpace (ws +:+ md) = strings.TrimSpace md).
  { unfold strings.TrimSpace. by rewrite trimStart_blank. }
  unfold Local.parseFrontmatter, Remote.parseFrontmatter. by rewrite Htrim.
Qed.

Lemma parseFrontmatter_leading_space_witness :
  Remote.parseFrontmatter (rt := asciiRuntime) (newline +:+ " " +:+ helloPage) =
    Remote.parseFrontmatter (rt := asciiRuntime) helloPage.
Proof.
  change (newline +:+ " " +:+ helloPage) with ((newline +:+ " ") +:+ helloPage).
  apply (@parseFrontmatter_leading_space asciiRuntime (newline +:+ " ") helloPage).
  reflexivity.
Defined.

(** ** The build, whether or not it succeeds *)

Section BuildOrder.
Context {world : Site.World}.

Lemma buildFn_step (path : string) (v : visit) (fs fs' : Site.Files)
    (e : option error) :
  Site.buildFn path v fs = (fs', e) →
  ∃ extra, fs' = fs ++ extra ∧
    map fst extra `prefix_of`
      map Site.outputPath (map fst (List.filter isMarkdownFile (allVisits [(path, v)]))).
Proof.
  destruct v as [d|d err]; cbn [allVisits List.filter].
  2:{ intros [= <- <-]. exists []. by rewrite app_nil_r. }
  unfold Site.buildFn, isMarkdownFile. cbn [fst snd].
  assert (Hnone : ∀ l : list string, map fst (@nil (string * string)) `prefix_of` l)
    by (intros l; apply prefix_nil).
  destruct (IsDir d); cbn [negb andb orb].
  { intros [= <- <-]. exists []. by rewrite app_nil_r. }
  destruct (strings.HasSuffix path ".md"); cbn [negb andb orb].
  2:{ intros [= <- <-]. exists []. by rewrite app_nil_r. }
  destruct (Site.os_MkdirAll _).
  { intros [= <- <-]. exists []. by rewrite app_nil_r. }
  destruct (Site.renderMarkdown path) as [err|html].
  { intros [= <- <-]. exists []. by rewrite app_nil_r. }
  destruct (Rel (Dir path) Site.ContentPath) as [rel [err|]].
  { intros [= <- <-]. exists []. by rewrite app_nil_r. }
  unfold Site.writePage. destruct (Site.os_Create _).
  { intros [= <- <-]. exists []. by rewrite app_nil_r. }
  destruct (Site.ExecuteTemplate _ _) as [out err]. intros [= <- <-].
  by exists [(Site.outputPath path, out)].
Qed.

Lemma runEvents_buildFn_prefix (evs : list (string * visit)) (fs fs' : Site.Files)
    (e : option error) :
  runEvents Site.buildFn evs fs = (fs', e) →
  ∃ created, fs' = fs ++ created ∧
    map fst created `prefix_of`
      map Site.outputPath (map fst (List.filter isMarkdownFile (allVisits evs))).
Proof.
  revert fs. induction evs as [|[path v] evs IH]; intros fs.
  - intros [= <- <-]. exists []. by rewrite app_nil_r.
  - change ((path, v) :: evs) with ([(path, v)] ++ evs).
    rewrite allVisits_app, List.filter_app, !map_app.
    cbn [runEvents app].
    destruct (Site.buildFn path v fs) as [fs1 [err|]] eqn:Hstep.
    + intros [= <- <-]. apply buildFn_step in Hstep as (extra & -> & Hpre).
      exists extra. split; [done|]. by apply prefix_app_r.
    + intros Hrest. apply IH in Hrest as (created & -> & Hpre).
      destruct v as [d|d err]; [|done].
      apply buildFn_Visit in Hstep as (extra & -> & Hextra).
      exists (extra ++ created). rewrite <- app_assoc. split; [done|].
      rewrite map_app. cbn [allVisits List.filter].
      destruct (isMarkdownFile (path, d)); rewrite Hextra; by apply prefix_app.
Qed.


Lemma buildFn_Visit_page (path : string) (d : DirEntry) (fs fs' : Site.Files) :
  Site.buildFn path (Visit d) fs = (fs', None) →
  if isMarkdownFile (path, d)
  then ∃ f, fs' = fs ++ [f] ∧ isPageOf path f
  else fs' = fs.
Proof.
  unfold Site.buildFn, isMarkdownFile. cbn [fst snd].
  destruct (IsDir d); cbn [negb andb orb]; [by intros [= <-]|].
  destruct (strings.HasSuffix path ".md"); cbn [negb andb orb]; [|by intros [= <-]].
  destruct (Site.os_MkdirAll _); [done|].
  unfold Site.renderMarkdown.
  destruct (Site.os_ReadFile path) as [err|md] eqn:Hread; [done|].
  destruct (Site.goldmark_Convert _) as [err|html] eqn:Hconv; [done|].
  destruct (Rel (Dir path) Site.ContentPath) as [rel [err|]] eqn:Hrel; [done|].
  unfold Site.writePage. destruct (Site.os_Create _); [done|].
  destruct (Site.ExecuteTemplate _ _) as [out err] eqn:Hexec. intros [= <- ->].
  exists (Site.outputPath path, out). split; [done|].
  exists md, html, rel. by rewrite Hread, Hconv, Hrel, Hexec.
Qed.

Lemma runEvents_buildFn_pages (evs : list (string * visit)) (fs fs' : Site.Files) :
  runEvents Site.buildFn evs fs = (fs', None) →
  ∃ pages, fs' = fs ++ pages ∧
    Forall2 isPageOf (map fst (List.filter isMarkdownFile (allVisits evs))) pages.
Proof.
  revert fs. induction evs as [|[path [d|d err]] evs IH]; intros fs;
    cbn [runEvents allVisits List.filter].
  - intros [= <-]. exists []. rewrite app_nil_r. split; [done|]. constructor.
  - destruct (Site.buildFn path (Visit d) fs) as [fs1 [err|]] eqn:Hstep; [done|].
    intros Hrest. apply IH in Hrest as (pages & -> & Hpages).
    apply buildFn_Visit_page in Hstep.
    destruct (isMarkdownFile (path, d)).
    + destruct Hstep as (f & -> & Hf). exists (f :: pages).
      rewrite <- app_assoc. split; [done|]. by constructor.
    + subst fs1. by exists pages.
  - done.
Qed.

(** X10: when the build succeeds, the files it created are the pages of
    the markdown files under the content root, one for one and in the
    order of the walk: each holds what the base template gives for the
    converted markdown of the file with its links rewritten, the name of
    the file as title, its sidebar, and the way back to the content
    root. *)
Theorem buildPages_writes_pages (t : Tree) (files : Site.Files) :
  Site.os_Tree Site.ContentPath = inr t →
  Site.buildPages [] = (files, None) →
  Forall2 isPageOf (markdownFiles Site.ContentPath t) files.
Proof.
  intros Htree Hbuild. unfold Site.buildPages in Hbuild.
  rewrite WalkDir_events, Htree in Hbuild.
  apply runEvents_buildFn_pages in Hbuild as (pages & -> & Hpages).
  cbn [walkEvents] in Hpages. by rewrite allVisits_events in Hpages.
Qed.

End BuildOrder.

Lemma buildPages_writes_pages_witness :
  Forall2 (isPageOf (world := exampleWorld))
    (markdownFiles Site.ContentPath exampleTree)
    (Site.buildPages (world := exampleWorld) []).1.
Proof.
  apply (@buildPages_writes_pages exampleWorld exampleTree
           (Site.buildPages (world := exampleWorld) []).1).
  - reflexivity.
  - vm_compute. reflexivity.
Defined.

(** ** Reversed strings, directories and last elements *)

Lemma str_app_nil_r (s : string) : s +:+ "" = s.
Proof. induction s as [|c s IH]; [done|]. by rewrite str_app_cons, IH. Qed.

Lemma rev_app_app (a b acc : string) :
  String.rev_app (a +:+ b) acc = String.rev_app b (String.rev_app a acc).
Proof.
  revert acc. induction a as [|c a IH]; intros acc; [done|].
  rewrite str_app_cons. simpl. apply IH.
Qed.

Lemma rev_app_spec (s acc : string) : String.rev_app s acc = String.rev s +:+ acc.
Proof.
  unfold String.rev. revert acc. induction s as [|c s IH]; intros acc; [done|].
  simpl. rewrite IH, (IH (String c "")), str_app_assoc. done.
Qed.

Lemma rev_rev_app (s acc : string) :
  String.rev (String.rev_app s acc) = String.rev_app acc s.
Proof.
  revert acc. induction s as [|c s IH]; intros acc; [done|].
  simpl. by rewrite IH.
Qed.

Lemma rev_rev (s : string) : String.rev (String.rev s) = s.
Proof. unfold String.rev at 2. by rewrite rev_rev_app. Qed.

Lemma str_rev_app_distr (a b : string) :
  String.rev (a +:+ b) = String.rev b +:+ String.rev a.
Proof. unfold String.rev at 1. by rewrite rev_app_app, rev_app_spec. Qed.

Lemma Contains_slash_app (a b : string) :
  strings.Contains (a +:+ b) "/" = strings.Contains a "/" || strings.Contains b "/".
Proof.
  induction a as [|c a IH]; [done|].
  by rewrite str_app_cons, !Contains_slash_cons, IH, orb_assoc.
Qed.

Lemma Contains_slash_rev (s : string) :
  strings.Contains (String.rev s) "/" = strings.Contains s "/".
Proof.
  induction s as [|c s IH]; [done|].
  change (String c s) with (String c "" +:+ s) at 1.
  rewrite str_rev_app_distr, Contains_slash_app, IH, Contains_slash_cons.
  change (String.rev (String c "")) with (String c "").
  rewrite Contains_slash_cons. change (strings.Contains "" "/") with false.
  by rewrite orb_false_r, orb_comm.
Qed.

Lemma dropWhile_noslash (a b : string) :
  strings.Contains a "/" = false →
  dropWhile (λ c, negb (isSlash c)) (a +:+ b) = dropWhile (λ c, negb (isSlash c)) b.
Proof.
  induction a as [|c a IH]; [done|].
  rewrite Contains_slash_cons. intros [Hc Ha]%orb_false_elim.
  rewrite str_app_cons. simpl. rewrite Hc. simpl. by apply IH.
Qed.

Lemma takeWhile_noslash (a b : string) :
  strings.Contains a "/" = false →
  takeWhile (λ c, negb (isSlash c)) (a +:+ b) =
    a +:+ takeWhile (λ c, negb (isSlash c)) b.
Proof.
  induction a as [|c a IH]; [done|].
  rewrite Contains_slash_cons. intros [Hc Ha]%orb_false_elim.
  rewrite !str_app_cons. simpl. rewrite Hc. simpl. by rewrite IH.
Qed.

(** The directory of a path that ends in a name. *)
Lemma Dir_app_slash (p l : string) :
  strings.Contains l "/" = false → Dir (p +:+ "/" +:+ l) = Clean (p +:+ "/").
Proof.
  intros Hl. unfold Dir. f_equal.
  rewrite !str_rev_app_distr, str_app_assoc.
  rewrite dropWhile_noslash by (by rewrite Contains_slash_rev).
  change (String.rev "/") with "/".
  change ("/" +:+ String.rev p) with (String "/" (String.rev p)).
  cbn [dropWhile]. change (negb (isSlash "/")) with false. cbn match.
  change (String "/" (String.rev p)) with ("/" +:+ String.rev p).
  by rewrite str_rev_app_distr, rev_rev.
Qed.

Lemma Clean_trailing_slash (p : string) : cleanPath p = true → Clean (p +:+ "/") = p.
Proof.
  intros Hp. destruct (cleanPath_not_rooted p Hp) as [Hne Hroot].
  unfold Clean.
  assert (He : isEmpty (p +:+ "/") = false) by (by destruct p).
  assert (Hr : strings.HasPrefix (p +:+ "/") "/" = false) by (by destruct p).
  rewrite He, Hr.
  change (p +:+ "/") with (p +:+ "/" +:+ "").
  rewrite splitSlash_app_slash, fold_left_app, (fold_cleanStep_kept _ _ _ Hp).
  cbn [splitSlash fold_left]. unfold cleanStep. cbn [String.eqb orb].
  rewrite app_nil_r, rev_involutive, Join_splitSlash. by rewrite Hne.
Qed.

Lemma Dir_cleanPath (p l : string) :
  cleanPath p = true → strings.Contains l "/" = false → Dir (p +:+ "/" +:+ l) = p.
Proof. intros Hp Hl. by rewrite Dir_app_slash, Clean_trailing_slash. Qed.

(** The last element of a path that ends in a name. *)
Lemma Base_noslash (l : string) :
  l ≠ "" → strings.Contains l "/" = false → Base l = l.
Proof.
  intros Hne Hl. unfold Base. rewrite (isEmpty_false _ Hne).
  assert (Hrev : strings.Contains (String.rev l) "/" = false)
    by (by rewrite Contains_slash_rev).
  assert (Hdrop : dropWhile isSlash (String.rev l) = String.rev l).
  { destruct (String.rev l) as [|c r]; [done|].
    rewrite Contains_slash_cons in Hrev. apply orb_false_elim in Hrev as [Hc _].
    simpl. by rewrite Hc. }
  assert (Htake : takeWhile (λ c, negb (isSlash c)) (String.rev l) = String.rev l).
  { rewrite <- (str_app_nil_r (String.rev l)) at 1.
    rewrite takeWhile_noslash by done. apply str_app_nil_r. }
  rewrite Hdrop, Htake, rev_rev. by rewrite (isEmpty_false _ Hne).
Qed.

Lemma Base_app_slash (p l : string) :
  l ≠ "" → strings.Contains l "/" = false → Base (p +:+ "/" +:+ l) = l.
Proof.
  intros Hne Hl. unfold Base.
  assert (He : isEmpty (p +:+ "/" +:+ l) = false) by (by destruct p).
  rewrite He.
  assert (Hrev : strings.Contains (String.rev l) "/" = false)
    by (by rewrite Contains_slash_rev).
  rewrite !str_rev_app_distr, str_app_assoc.
  assert (Hdrop : ∀ x, dropWhile isSlash (String.rev l +:+ x) = String.rev l +:+ x).
  { intros x. destruct (String.rev l) as [|c r] eqn:Hr.
    - apply (f_equal String.rev) in Hr. rewrite rev_rev in Hr. done.
    - rewrite Contains_slash_cons in Hrev. apply orb_false_elim in Hrev as [Hc _].
      rewrite str_app_cons. simpl. by rewrite Hc. }
  rewrite Hdrop, takeWhile_noslash by done.
  change (String.rev "/") with "/".
  change ("/" +:+ String.rev p) with (String "/" (String.rev p)).
  cbn [takeWhile]. change (negb (isSlash "/")) with false. cbn match.
  rewrite str_app_nil_r, rev_rev. by rewrite (isEmpty_false _ Hne).
Qed.

(** ** Paths as lists of elements *)

Lemma Join_app (l1 l2 : list string) :
  l1 ≠ [] → l2 ≠ [] →
  strings.Join (l1 ++ l2) "/" = strings.Join l1 "/" +:+ "/" +:+ strings.Join l2 "/".
Proof.
  induction l1 as [|e l1 IH]; [done|]. intros _ Hl2.
  destruct l1 as [|e' l1].
  - destruct l2 as [|e2 l2]; [done|]. apply Join_cons2.
  - change ((e :: e' :: l1) ++ l2) with (e :: e' :: (l1 ++ l2)).
    rewrite !Join_cons2.
    change (e' :: l1 ++ l2) with ((e' :: l1) ++ l2).
    rewrite IH by done. by rewrite !str_app_assoc.
Qed.

Lemma Join_snoc_app (l : list string) (x y : string) :
  strings.Join (l ++ [x +:+ y]) "/" = strings.Join (l ++ [x]) "/" +:+ y.
Proof.
  destruct l as [|e l]; [done|].
  rewrite !Join_app by done. cbn [strings.Join]. by rewrite !str_app_assoc.
Qed.

Lemma goodName_noslash (n : string) :
  goodName n = true → n ≠ "" ∧ strings.Contains n "/" = false ∧ keptElem n = true.
Proof.
  unfold goodName. intros [Hk Hs%negb_true_iff]%andb_prop.
  split; [|done]. intros ->. done.
Qed.

Lemma goodNames_noslash (ns : list string) :
  Forall (λ n, goodName n = true) ns →
  Forall (λ n, strings.Contains n "/" = false) ns ∧ forallb keptElem ns = true.
Proof.
  intros Hns. split.
  - eapply Forall_impl; [done|]. intros n Hn. by apply goodName_noslash in Hn as (_ & ? & _).
  - apply forallb_forall. intros n Hn%list_elem_of_In.
    apply (proj1 (Forall_forall _ _) Hns) in Hn.
    by apply goodName_noslash in Hn as (_ & _ & ?).
Qed.

(** [Clean] on a relative path given by its elements. *)
Lemma Clean_Join (e : string) (elems : list string) :
  e ≠ "" → Forall (λ n, strings.Contains n "/" = false) (e :: elems) →
  Clean (strings.Join (e :: elems) "/") =
    let body :=
      strings.Join (rev (fold_left (cleanStep false) (e :: elems) [])) "/" in
    if isEmpty body then "." else body.
Proof.
  intros Hne Hall. unfold Clean.
  rewrite splitSlash_Join by done.
  apply Forall_cons in Hall as [He _].
  destruct e as [|c e]; [done|]. rewrite Contains_slash_cons in He.
  apply orb_false_elim in He as [Hc _].
  assert (Hj : ∃ r, strings.Join (String c e :: elems) "/" = String c r).
  { destruct elems as [|e' elems]; [by eexists|].
    rewrite Join_cons2, str_app_cons. by eexists. }
  destruct Hj as [r ->]. cbn [isEmpty strings.HasPrefix].
  unfold isSlash in Hc. by rewrite Hc.
Qed.

Lemma fold_dotdots_up (k j : nat) :
  fold_left (cleanStep false) (replicate k "..") (replicate j "..") =
    replicate (k + j) "..".
Proof.
  revert j. induction k as [|k IH]; intros j; [done|].
  cbn [replicate fold_left].
  assert (Hstep : cleanStep false (replicate j "..") ".." = replicate (S j) "..")
    by (by destruct j).
  rewrite Hstep, IH. f_equal. lia.
Qed.

Lemma fold_dotdots_back (rds out : list string) :
  forallb keptElem rds = true →
  fold_left (cleanStep false) (replicate (length rds) "..") (rds ++ out) = out.
Proof.
  induction rds as [|x rds IH]; [done|].
  cbn [forallb]. intros [Hx Hrds]%andb_prop.
  cbn [length replicate fold_left app].
  assert (Hstep : cleanStep false (x :: rds ++ out) ".." = rds ++ out).
  { unfold cleanStep, keptElem in *. cbn [String.eqb Ascii.eqb orb] .
    apply andb_prop in Hx as [_ Hx]. by rewrite Hx. }
  rewrite Hstep. by apply IH.
Qed.

Lemma rev_replicate (k : nat) (x : string) : rev (replicate k x) = replicate k x.
Proof.
  induction k as [|k IH]; [done|].
  cbn [replicate rev]. rewrite IH. symmetry. apply replicate_cons_app.
Qed.

Lemma Index_noslash (e r : string) :
  strings.Contains e "/" = false →
  strings.Index (e +:+ "/" +:+ r) "/" = Some (String.length e).
Proof.
  induction e as [|c e IH]; [done|].
  rewrite Contains_slash_cons. intros [Hc He]%orb_false_elim.
  rewrite str_app_cons, Index_cons.
  - by rewrite (IH He).
  - simpl. unfold isSlash in Hc. by rewrite Hc.
Qed.

Lemma Count_slash_Join (ds : list string) :
  Forall (λ n, strings.Contains n "/" = false) ds →
  strings.Count (strings.Join ds "/") "/" = length ds - 1.
Proof.
  induction ds as [|e ds IH]; [done|]. intros [He Hds]%Forall_cons.
  rewrite Count_unfold by done.
  destruct ds as [|e' ds].
  - cbn [strings.Join]. unfold strings.Contains in He.
    by destruct (strings.Index e "/").
  - rewrite Join_cons2, (Index_noslash _ _ He).
    change (String.length "/") with 1.
    replace (String.length e + 1) with (String.length (e +:+ "/"))
      by (rewrite str_length_app; done).
    rewrite <- str_app_assoc, dropS_app, (IH Hds). simpl. lia.
Qed.

Lemma Join_dotdots (k : nat) :
  strings.Join (replicate (S k) "..") "/" = ".." +:+ dotdots k.
Proof.
  induction k as [|k IH]; [done|].
  change (replicate (S (S k)) "..") with (".." :: replicate (S k) "..").
  cbn [replicate] in *. rewrite Join_cons2, IH. done.
Qed.

(** The way from a directory below the content root back to it. *)
Lemma Rel_up (ds : list string) :
  ds ≠ [] → Forall (λ n, goodName n = true) ds →
  Rel ("content" +:+ "/" +:+ strings.Join ds "/") Site.ContentPath =
    (strings.Join (replicate (length ds) "..") "/", None).
Proof.
  intros Hne Hgood. pose proof (cleanPath_Join ds Hne Hgood) as Hclean.
  destruct (goodNames_noslash ds Hgood) as [Hslash _].
  pose proof (Count_slash_Join ds Hslash) as Hcount.
  destruct (cleanPath_not_rooted _ Hclean) as [Hx _].
  unfold Rel, Site.ContentPath.
  rewrite (Clean_cleanPath "content") by done.
  rewrite (Clean_cleanPath ("content" +:+ "/" +:+ strings.Join ds "/"))
    by (by rewrite cleanPath_app_slash, Hclean).
  destruct (strings.Join ds "/") as [|c x] eqn:Hj; [done|].
  assert (Hloop :
    relLoop (S (String.length ("content" +:+ "/" +:+ String c x)))
      ("content" +:+ "/" +:+ String c x) "content" = ("", String c x, ""))
    by (by vm_compute).
  change (String.eqb "content" ("content" +:+ "/" +:+ String c x)) with false.
  change (String.eqb ("content" +:+ "/" +:+ String c x) ".") with false.
  cbv iota.
  change (strings.HasPrefix ("content" +:+ "/" +:+ String c x) "/") with false.
  change (strings.HasPrefix "content" "/") with false.
  cbn [Bool.eqb negb]. rewrite Hloop. cbn [String.eqb isEmpty negb].
  rewrite Hcount, str_app_nil_r.
  destruct ds as [|d ds]; [done|].
  change (length (d :: ds)) with (S (length ds)).
  replace (S (length ds) - 1) with (length ds) by lia. by rewrite Join_dotdots.
Qed.

(** ** The paths of a page *)

Lemma Join_cons_ne (e : string) (l : list string) :
  l ≠ [] → strings.Join (e :: l) "/" = e +:+ "/" +:+ strings.Join l "/".
Proof. destruct l; [done|]. intros _. apply Join_cons2. Qed.

(** A markdown file of a well-named tree by its elements: the names of
    the directories that lead to it from the content root, and its own
    name, which ends in [.md]. *)
Lemma markdownFiles_elems (t : Tree) (mdPath : string) :
  wellNamed t → mdPath ∈ markdownFiles Site.ContentPath t →
  ∃ (ds : list string) (l : string),
    Forall (λ n, goodName n = true) ds ∧
    goodName (l +:+ ".md") = true ∧
    strings.Contains l "/" = false ∧
    mdPath = strings.Join ("content" :: ds ++ [l +:+ ".md"]) "/".
Proof.
  intros Hwell ([p d] & -> & Hin)%list_elem_of_fmap.
  apply list_elem_of_In, filter_In in Hin as [Hin Hmd].
  apply andb_prop in Hmd as [_ Hmd]. simpl in Hmd |- *.
  assert (Hp : p ∈ map fst (nodes Site.ContentPath (Base Site.ContentPath) t)).
  { apply list_elem_of_fmap. exists (p, d). split; [done|]. by apply list_elem_of_In. }
  rewrite nodes_paths in Hp by done.
  apply list_elem_of_fmap in Hp as (ns & -> & Hns).
  apply (proj1 (Forall_forall _ _) (relPaths_good t Hwell)) in Hns.
  destruct ns as [|e ns]; [done|].
  change (strings.Join (Site.ContentPath :: e :: ns) "/")
    with ("content" +:+ "/" +:+ strings.Join (e :: ns) "/") in *.
  apply HasSuffix_content in Hmd. pose proof (HasSuffix_split _ _ Hmd) as Hsplit.
  destruct (@exists_last _ (e :: ns) ltac:(done)) as (ds & name & Hlast).
  rewrite Hlast in *. clear Hlast e ns.
  apply Forall_app in Hns as [Hds Hname]. apply Forall_cons in Hname as [Hname _].
  destruct (goodNames_noslash ds Hds) as [Hdslash _].
  destruct (goodName_noslash name Hname) as (_ & Hnslash & _).
  set (u := strings.TrimSuffix (strings.Join (ds ++ [name]) "/") ".md") in *.
  destruct (splitSlash_snoc u) as (init & l & Hu & Hux).
  specialize (Hux ".md" eq_refl). rewrite <- Hsplit in Hux.
  rewrite splitSlash_Join in Hux.
  2:{ by destruct ds. }
  2:{ apply Forall_app. split; [done|]. by apply Forall_singleton. }
  apply app_inj_tail in Hux as [-> ->].
  exists init, l. split; [done|]. split; [done|]. split.
  - rewrite Contains_slash_app in Hnslash.
    by apply orb_false_elim in Hnslash as [? _].
  - by destruct init.
Qed.

Section PagePaths.
Variables (ds : list string) (l : string).
Hypothesis Hds : Forall (λ n, goodName n = true) ds.
Hypothesis Hl : goodName (l +:+ ".md") = true.
Hypothesis Hls : strings.Contains l "/" = false.

Lemma html_noslash : strings.Contains (l +:+ ".html") "/" = false.
Proof. by rewrite Contains_slash_app, Hls. Qed.

Lemma goodName_html : goodName (l +:+ ".html") = true.
Proof. unfold goodName. by rewrite keptElem_html, html_noslash. Qed.

Lemma cleanPath_under (root : string) :
  goodName root = true → cleanPath (strings.Join (root :: ds) "/") = true.
Proof. intros Hroot. apply cleanPath_Join; [done|]. by constructor. Qed.

Lemma page_mdPath (root : string) (name : string) :
  strings.Join (root :: ds ++ [name]) "/" =
    strings.Join (root :: ds) "/" +:+ "/" +:+ name.
Proof.
  change (root :: ds ++ [name]) with ((root :: ds) ++ [name]).
  by rewrite Join_app.
Qed.

Lemma page_Rel :
  Rel Site.ContentPath (strings.Join ("content" :: ds ++ [l +:+ ".md"]) "/") =
    (strings.Join (ds ++ [l +:+ ".md"]) "/", None).
Proof.
  rewrite Join_cons_ne by (by destruct ds).
  apply Rel_content. apply cleanPath_Join; [by destruct ds|].
  apply Forall_app. split; [done|]. by apply Forall_singleton.
Qed.

(** The output path keeps the directories and swaps the suffix. *)
Lemma page_outputPath :
  Site.outputPath (strings.Join ("content" :: ds ++ [l +:+ ".md"]) "/") =
    strings.Join ("build" :: ds ++ [l +:+ ".html"]) "/".
Proof.
  rewrite !Join_cons_ne by (by destruct ds).
  rewrite !Join_snoc_app. apply outputPath_mirror.
  rewrite <- Join_snoc_app. apply cleanPath_Join; [by destruct ds|].
  apply Forall_app. split; [done|]. by apply Forall_singleton.
Qed.

Lemma page_Dir :
  Dir (strings.Join ("content" :: ds ++ [l +:+ ".md"]) "/") =
    strings.Join ("content" :: ds) "/".
Proof.
  rewrite page_mdPath. apply Dir_cleanPath.
  - by apply cleanPath_under.
  - by apply goodName_noslash in Hl as (_ & ? & _).
Qed.

Lemma page_Dir_outputPath :
  Dir (Site.outputPath (strings.Join ("content" :: ds ++ [l +:+ ".md"]) "/")) =
    strings.Join ("build" :: ds) "/".
Proof.
  rewrite page_outputPath, page_mdPath. apply Dir_cleanPath.
  - by apply cleanPath_under.
  - apply html_noslash.
Qed.

(** The way from the directory of the file back to the content root: as
    many [..] as there are directories between them. *)
Lemma page_relRoot :
  Rel (Dir (strings.Join ("content" :: ds ++ [l +:+ ".md"]) "/")) Site.ContentPath =
    (match ds with
     | [] => "."
     | _ => strings.Join (replicate (length ds) "..") "/"
     end, None).
Proof.
  rewrite page_Dir. destruct ds as [|d ds'] eqn:Hd; [done|].
  rewrite Join_cons_ne by done. by apply Rel_up.
Qed.

(** Joining the directory of the page and a path that starts with the way
    back to the root gives the rest of that path below the build root. *)
Lemma Join_way_back (es : list string) :
  ds ++ es ≠ [] → Forall (λ n, goodName n = true) es →
  Join [strings.Join ("build" :: ds) "/";
        strings.Join (replicate (length ds) ".." ++ es) "/"] =
    strings.Join ("build" :: es) "/".
Proof.
  intros Hne Hes.
  destruct (goodNames_noslash ds Hds) as [Hdslash Hdkept].
  destruct (goodNames_noslash es Hes) as [Heslash Hekept].
  assert (Hbuild : isEmpty (strings.Join ("build" :: ds) "/") = false).
  { destruct ds; [done|]. by rewrite Join_cons2. }
  cbn [Join]. rewrite Hbuild.
  change (strings.Join [strings.Join ("build" :: ds) "/";
                        strings.Join (replicate (length ds) ".." ++ es) "/"] "/")
    with (strings.Join ("build" :: ds) "/" +:+ "/" +:+
          strings.Join (replicate (length ds) ".." ++ es) "/").
  rewrite <- Join_app; [|done|by destruct ds, es].
  change (("build" :: ds) ++ replicate (length ds) ".." ++ es)
    with ("build" :: (ds ++ replicate (length ds) ".." ++ es)).
  rewrite Clean_Join; [|done|].
  2:{ constructor; [done|]. apply Forall_app. split; [done|].
      apply Forall_app. split; [|done]. apply Forall_replicate. done. }
  cbn [fold_left]. change (cleanStep false [] "build") with ["build"].
  rewrite !fold_left_app.
  rewrite (fold_cleanStep_kept _ _ _ Hdkept).
  rewrite <- (length_rev ds), fold_dotdots_back.
  2:{ apply forallb_forall. intros n Hn%in_rev.
      by apply (proj1 (forallb_forall _ _) Hdkept). }
  rewrite (fold_cleanStep_kept _ _ _ Hekept), rev_app_distr, rev_involutive.
  cbn [rev app]. cbv zeta.
  assert (Hres : isEmpty (strings.Join ("build" :: es) "/") = false).
  { destruct es; [done|]. by rewrite Join_cons2. }
  by rewrite Hres.
Qed.

End PagePaths.

(** Joining the way back to the root and a clean path keeps both. *)
Lemma Join_up (k : nat) (es : list string) :
  es ≠ [] → Forall (λ n, goodName n = true) es →
  Join [strings.Join (replicate (S k) "..") "/"; strings.Join es "/"] =
    strings.Join (replicate (S k) ".." ++ es) "/".
Proof.
  intros Hne Hes. destruct (goodNames_noslash es Hes) as [Heslash Hekept].
  cbn [Join]. rewrite Join_dotdots.
  change (isEmpty (".." +:+ dotdots k)) with false. cbv iota.
  change (strings.Join [".." +:+ dotdots k; strings.Join es "/"] "/")
    with ((".." +:+ dotdots k) +:+ "/" +:+ strings.Join es "/").
  rewrite <- Join_dotdots, <- Join_app by done.
  change (replicate (S k) ".." ++ es) with (".." :: (replicate k ".." ++ es)).
  rewrite Clean_Join; [|done|].
  2:{ constructor; [done|]. apply Forall_app. split; [|done].
      by apply Forall_replicate. }
  change (".." :: (replicate k ".." ++ es)) with (replicate (S k) ".." ++ es).
  rewrite fold_left_app.
  change (@nil string) with (replicate 0 "..") at 1.
  rewrite (fold_dotdots_up (S k) 0), (fold_cleanStep_kept _ _ _ Hekept).
  rewrite rev_app_distr, rev_involutive, rev_replicate, Nat.add_0_r. cbv zeta.
  assert (Hres : isEmpty (strings.Join (replicate (S k) ".." ++ es) "/") = false).
  { cbn [replicate app]. destruct (replicate k ".." ++ es); [done|].
    by rewrite Join_cons2. }
  by rewrite Hres.
Qed.

(** The link of a sidebar entry, by elements: the way from the directory
    of the current page back to the root, then the way from the root to
    the listed page. *)
Lemma sidebar_link (ds es : list string) (l m : string) :
  Forall (λ n, goodName n = true) ds → goodName (l +:+ ".md") = true →
  strings.Contains l "/" = false →
  Forall (λ n, goodName n = true) es → goodName (m +:+ ".md") = true →
  strings.Contains m "/" = false →
  let cur := strings.Join ("content" :: ds ++ [l +:+ ".md"]) "/" in
  let p := strings.Join ("content" :: es ++ [m +:+ ".md"]) "/" in
  let relRoot := (Rel (Dir cur) Site.ContentPath).1 in
  let rel := (Rel Site.ContentPath p).1 in
  strings.TrimSuffix
    (if String.eqb relRoot "." then rel else Join [relRoot; rel]) ".md" =
    strings.Join (replicate (length ds) ".." ++ es ++ [m]) "/".
Proof.
  intros Hds Hl Hls Hes Hm Hms cur p relRoot rel.
  assert (Hrel : rel = strings.Join (es ++ [m +:+ ".md"]) "/").
  { unfold rel, p. by rewrite page_Rel. }
  assert (HrelRoot : relRoot =
    match ds with
    | [] => "."
    | _ => strings.Join (replicate (length ds) "..") "/"
    end).
  { unfold relRoot, cur. by rewrite page_relRoot. }
  assert (Hgood : Forall (λ n, goodName n = true) (es ++ [m +:+ ".md"])).
  { apply Forall_app. split; [done|]. by apply Forall_singleton. }
  rewrite HrelRoot, Hrel. destruct ds as [|d ds'].
  - change (String.eqb "." ".") with true. cbn [length replicate app]. cbv iota.
    by rewrite Join_snoc_app, TrimSuffix_app.
  - change (length (d :: ds')) with (S (length ds')).
    assert (Hne : String.eqb (strings.Join (replicate (S (length ds')) "..") "/") "."
                  = false) by (by rewrite Join_dotdots).
    rewrite Hne, Join_up; [|by destruct es|done].
    rewrite !app_assoc, Join_snoc_app, TrimSuffix_app. done.
Qed.

Lemma visitedBeforeError_allVisits (evs : list (string * visit))
    (pd : string * DirEntry) :
  pd ∈ visitedBeforeError evs → pd ∈ allVisits evs.
Proof.
  induction evs as [|[path [d|d err]] evs IH]; cbn [visitedBeforeError allVisits].
  - done.
  - intros [->|Hin]%elem_of_cons; [by left|]. right. by apply IH.
  - by intros ?%elem_of_nil.
Qed.

Lemma isCandidate_markdownFile (pd : string * DirEntry) :
  isCandidate pd = true →
  isMarkdownFile pd = true ∧ strings.Contains pd.1 Site.RootPage = false.
Proof.
  unfold isCandidate, isMarkdownFile.
  destruct (IsDir pd.2), (strings.Contains pd.1 Site.RootPage),
    (strings.HasSuffix pd.1 ".md"); done.
Qed.

(** X11: for every markdown file of a well-named tree, computing the way
    from the directory of the file back to the content root never fails:
    the result is [.] for a file directly under the root and otherwise one
    [..] for each directory between the root and the file; joined to the
    directory of the output file it leads to the build root. *)
Theorem buildPages_way_back (t : Tree) (mdPath : string) :
  wellNamed t → mdPath ∈ markdownFiles Site.ContentPath t →
  ∃ (ds : list string) (name : string),
    mdPath = strings.Join (Site.ContentPath :: ds ++ [name]) "/" ∧
    Rel (Dir mdPath) Site.ContentPath =
      (match ds with
       | [] => "."
       | _ => strings.Join (replicate (length ds) "..") "/"
       end, None) ∧
    Join [Dir (Site.outputPath mdPath); (Rel (Dir mdPath) Site.ContentPath).1] =
      Site.BuildPath.
Proof.
  intros Hwell Hmd.
  destruct (markdownFiles_elems t mdPath Hwell Hmd) as (ds & l & Hds & Hl & Hls & ->).
  exists ds, (l +:+ ".md"). split; [done|].
  rewrite (page_relRoot ds l Hds Hl). split; [done|].
  rewrite (page_Dir_outputPath ds l Hds Hl Hls). cbn [fst].
  destruct ds as [|d ds'] eqn:Hd; [done|]. rewrite <- Hd in *.
  pose proof (Join_way_back ds Hds []) as Hback.
  rewrite !app_nil_r in Hback. apply Hback; [by rewrite Hd|done].
Qed.

Lemma buildPages_way_back_witness :
  ∃ (ds : list string) (name : string),
    "content/guide/intro.md" = strings.Join (Site.ContentPath :: ds ++ [name]) "/" ∧
    Rel (Dir "content/guide/intro.md") Site.ContentPath =
      (match ds with
       | [] => "."
       | _ => strings.Join (replicate (length ds) "..") "/"
       end, None) ∧
    Join [Dir (Site.outputPath "content/guide/intro.md");
          (Rel (Dir "content/guide/intro.md") Site.ContentPath).1] = Site.BuildPath.
Proof.
  apply (buildPages_way_back exampleTree "content/guide/intro.md").
  - exact exampleTree_wellNamed.
  - assert (Hfiles : markdownFiles Site.ContentPath exampleTree =
      ["content/guide/intro.md"; "content/index.md"; "content/top.md"])
      by (vm_compute; reflexivity).
    rewrite Hfiles. left.
Defined.

(** X12: in a well-named tree the links of a sidebar lead to the pages
    they list. For the sidebar built for a markdown file, every entry
    stands for a markdown file under the content root whose path does not
    contain the name of the root page, and its link, taken relative to the
    directory of the output file of the current page, is the output path
    of that file. The title of the entry is the title of that page, its
    file name without the suffix (for a file that is not named [.md]). *)
Theorem generateSidebar_links_resolve {world : Site.World} (t : Tree)
    (cur : string) (item : Site.NavItem) :
  Site.os_Tree Site.ContentPath = inr t →
  wellNamed t →
  cur ∈ markdownFiles Site.ContentPath t →
  item ∈ Site.generateSidebar Site.ContentPath cur →
  ∃ p : string,
    p ∈ markdownFiles Site.ContentPath t ∧
    strings.Contains p Site.RootPage = false ∧
    Join [Dir (Site.outputPath cur); Site.Link item] = Site.outputPath p ∧
    (Base p ≠ ".md" → Site.NavTitle item = Base (strings.TrimSuffix p ".md")).
Proof.
  intros Htree Hwell Hcur Hitem.
  unfold Site.generateSidebar in Hitem.
  rewrite WalkDir_events, runEvents_sidebarFn, Htree in Hitem.
  cbn [app walkEvents] in Hitem.
  apply list_elem_of_In, in_concat in Hitem as (items & Hitems & Hitem).
  apply in_map_iff in Hitems as ([p d] & <- & Hpd).
  apply filter_In in Hpd as [Hpd Hcand].
  apply list_elem_of_In, visitedBeforeError_allVisits in Hpd.
  rewrite allVisits_events in Hpd.
  destruct (isCandidate_markdownFile _ Hcand) as [Hmdfile Hroot].
  cbn [fst snd] in *.
  assert (Hp : p ∈ markdownFiles Site.ContentPath t).
  { apply list_elem_of_fmap. exists (p, d). split; [done|].
    apply list_elem_of_In, filter_In. split; [|done]. by apply list_elem_of_In. }
  exists p. split; [done|]. split; [done|].
  destruct (markdownFiles_elems t cur Hwell Hcur) as (ds & l & Hds & Hl & Hls & ->).
  destruct (markdownFiles_elems t p Hwell Hp) as (es & m & Hes & Hm & Hms & ->).
  pose proof (sidebar_link ds es l m Hds Hl Hls Hes Hm Hms) as Hlink.
  cbv zeta in Hlink.
  unfold Site.sidebarFn in Hitem. unfold isCandidate in Hcand. cbn [fst snd] in Hcand.
  destruct (IsDir d); [done|].
  destruct (strings.Contains _ Site.RootPage); [done|].
  destruct (strings.HasSuffix _ ".md"); [|done].
  cbn [orb negb fst app] in Hitem. rewrite Hlink in Hitem.
  destruct Hitem as [<-|[]]. cbn [Site.Link Site.NavTitle].
  rewrite (page_Dir_outputPath ds l Hds Hl Hls), (page_outputPath es m Hes Hm).
  split.
  - rewrite app_assoc, <- Join_snoc_app, <- app_assoc.
    apply (Join_way_back ds Hds); [by destruct ds, es|].
    apply Forall_app. split; [done|]. apply Forall_singleton.
    by apply goodName_html.
  - intros Hbase.
    assert (Hm' : m ≠ "").
    { intros ->. apply Hbase. rewrite page_mdPath.
      by apply Base_app_slash. }
    change ("content" :: es ++ [m +:+ ".md"]) with (("content" :: es) ++ [m +:+ ".md"]).
    rewrite Join_snoc_app, TrimSuffix_app, (Join_app ("content" :: es) [m]) by done.
    cbn [strings.Join]. rewrite (Base_app_slash _ m) by done.
    destruct (replicate (length ds) ".." ++ es) as [|e rest] eqn:Hpre.
    + rewrite app_assoc, Hpre. cbn [app strings.Join]. by apply Base_noslash.
    + rewrite app_assoc, Hpre, Join_app by done.
      cbn [strings.Join]. by apply Base_app_slash.
Qed.

Lemma generateSidebar_links_resolve_witness :
  ∃ p : string,
    p ∈ markdownFiles Site.ContentPath exampleTree ∧
    strings.Contains p Site.RootPage = false ∧
    Join [Dir (Site.outputPath "content/guide/intro.md"); "../top.html"] =
      Site.outputPath p ∧
    (Base p ≠ ".md" → "top" = Base (strings.TrimSuffix p ".md")).
Proof.
  apply (@generateSidebar_links_resolve exampleWorld exampleTree
           "content/guide/intro.md"
           {| Site.NavTitle := "top"; Site.Link := "../top.html" |}).
  - reflexivity.
  - exact exampleTree_wellNamed.
  - assert (Hfiles : markdownFiles Site.ContentPath exampleTree =
      ["content/guide/intro.md"; "content/index.md"; "content/top.md"])
      by (vm_compute; reflexivity).
    rewrite Hfiles. left.
  - assert (Hitems :
      Site.generateSidebar (world := exampleWorld) Site.ContentPath
        "content/guide/intro.md" =
      [{| Site.NavTitle := "intro"; Site.Link := "../guide/intro.html" |};
       {| Site.NavTitle := "top"; Site.Link := "../top.html" |}])
      by (vm_compute; reflexivity).
    rewrite Hitems. right. left.
Defined.

(** ** The older walk as a list of calls *)

Section LstatCalls.
Context {St : Type} (lstatErr : string → option error).
Context (fn : string → visit → St → St * option error).

Lemma walk_calls (t : Tree) :
  ∀ path name st,
    walk lstatErr fn path name t st =
      runEvents fn (walkCalls lstatErr path name t) st.
Proof.
  induction t as [|readErr dirs IH] using Tree_ind'; intros path name st.
  - simpl. by destruct (fn path _ st) as [st1 [err|]].
  - cbn [walk walkCalls]. destruct readErr as [e|].
    { cbn [runEvents]. by destruct (fn path _ st) as [st1 [err|]]. }
    cbn [runEvents]. destruct (fn path _ st) as [st1 [err|]]; [done|].
    generalize st1. clear st1 st.
    induction IH as [|[name1 t1] rest Ht1 _ IHrest]; intros s; [done|].
    simpl in Ht1. rewrite runEvents_app.
    destruct (lstatErr (Join [path; name1])) as [err|].
    + cbn [runEvents].
      destruct (fn (Join [path; name1]) _ s) as [s' [err'|]]; [done|]. apply IHrest.
    + rewrite <- Ht1.
      destruct (walk lstatErr fn _ name1 t1 s) as [s' [err'|]]; [done|]. apply IHrest.
Qed.

Lemma Walk_calls (lstat : error + Tree) (root : string) (st : St) :
  Walk lstatErr fn lstat root st = runEvents fn (WalkCalls lstatErr lstat root) st.
Proof.
  destruct lstat as [err|t]; simpl.
  - by destruct (fn root _ st) as [st' [e|]].
  - apply walk_calls.
Qed.

End LstatCalls.

(** When no call of the older walk carries an error, its calls are the
    nodes of the tree. *)
Lemma walkCalls_nodes (lstatErr : string → option error) (t : Tree) :
  ∀ path name,
    Forall (λ ev, ∃ d, ev.2 = Visit d) (walkCalls lstatErr path name t) →
    allVisits (walkCalls lstatErr path name t) = nodes path name t.
Proof.
  induction t as [|readErr dirs IH] using Tree_ind'; intros path name; [done|].
  cbn [walkCalls nodes]. destruct readErr as [e|].
  { intros [[d Hd] _]%Forall_cons. done. }
  intros [_ Hall]%Forall_cons. cbn [allVisits]. f_equal.
  induction IH as [|[name1 t1] rest Ht1 _ IHrest]; [done|].
  simpl in Ht1. apply Forall_app in Hall as [Hfirst Hrest].
  rewrite allVisits_app, (IHrest Hrest). f_equal.
  destruct (lstatErr (Join [path; name1])) as [err|].
  - apply Forall_cons in Hfirst as [[d Hd] _]. done.
  - by apply Ht1.
Qed.

(** ** Copying the static files *)

Section CopyStatic.
Context {world : Site.World} {assets : Site.Assets}.

Lemma staticFn_Visit (src dst path : string) (d : DirEntry) (fs fs' : Site.Files) :
  Site.staticFn src dst path (Visit d) fs = (fs', None) →
  if isPlainFile (path, d)
  then ∃ f, fs' = fs ++ [f] ∧ isCopyOf src dst path f
  else fs' = fs.
Proof.
  unfold Site.staticFn, isPlainFile. cbn [fst snd].
  destruct (IsDir d); cbn [negb]; [by intros [= <-]|].
  unfold Site.copyFile, Site.io_Copy.
  destruct (Site.os_Open path) as [err|[bytes rerr]] eqn:Hopen; [done|].
  destruct (Site.os_Create _); [done|]. cbn [fst].
  destruct (Site.file_Write _ bytes) as [[n err]|]; [done|].
  intros [= <- ->]. eexists. split; [done|]. by split.
Qed.

Lemma runEvents_staticFn_copies (src dst : string) (evs : list (string * visit))
    (fs fs' : Site.Files) :
  runEvents (Site.staticFn src dst) evs fs = (fs', None) →
  Forall (λ ev, ∃ d, ev.2 = Visit d) evs ∧
  ∃ copies, fs' = fs ++ copies ∧
    Forall2 (isCopyOf src dst)
      (map fst (List.filter isPlainFile (allVisits evs))) copies.
Proof.
  revert fs. induction evs as [|[path [d|d err]] evs IH]; intros fs;
    cbn [runEvents allVisits List.filter].
  - intros [= <-]. split; [done|]. exists []. rewrite app_nil_r. split; [done|].
    constructor.
  - destruct (Site.staticFn src dst path (Visit d) fs) as [fs1 [err|]] eqn:Hstep;
      [done|].
    intros Hrest. apply IH in Hrest as (Hall & copies & -> & Hcopies).
    split; [constructor; [by eexists|done]|].
    apply staticFn_Visit in Hstep.
    destruct (isPlainFile (path, d)).
    + destruct Hstep as (f & -> & Hf). exists (f :: copies).
      rewrite <- app_assoc. split; [done|]. by constructor.
    + subst fs1. by exists copies.
  - done.
Qed.


End CopyStatic.


Lemma Forall2_elem_of_r {A B : Type} (P : A → B → Prop) (l : list A) (k : list B)
    (y : B) :
  Forall2 P l k → y ∈ k → ∃ x, x ∈ l ∧ P x y.
Proof.
  induction 1 as [|x y' l k Hxy _ IH]; [by intros ?%elem_of_nil|].
  intros [->|Hin]%elem_of_cons.
  - exists x. split; [by left|done].
  - destruct (IH Hin) as (x' & Hx' & HP). exists x'. split; [by right|done].
Qed.

Lemma Forall2_map_eq {A B C : Type} (P : A → B → Prop) (f : A → C) (g : B → C)
    (l : list A) (k : list B) :
  (∀ x y, P x y → g y = f x) → Forall2 P l k → map g k = map f l.
Proof.
  intros HP. induction 1 as [|x y l k Hxy _ IH]; [done|].
  simpl. by rewrite (HP x y Hxy), IH.
Qed.

Lemma Rel_static (rel : string) :
  cleanPath rel = true → Rel "static" ("static" +:+ "/" +:+ rel) = (rel, None).
Proof.
  intros Hrel. unfold Rel.
  assert (Hc : cleanPath "static" = true) by done.
  rewrite (Clean_cleanPath "static" Hc).
  rewrite (Clean_cleanPath ("static" +:+ "/" +:+ rel))
    by (by rewrite cleanPath_app_slash, Hc, Hrel).
  destruct (cleanPath_not_rooted rel Hrel) as [Hne _].
  destruct rel as [|c rel]; [done|]. by vm_compute.
Qed.

(** A file under [static] in a well-named tree, by the names that lead to
    it. *)
Lemma plainFiles_names (s : Tree) (p : string) :
  wellNamed s → p ∈ plainFiles "static" s →
  ∃ ns, ns ∈ relPaths s ∧ Forall (λ n, goodName n = true) ns ∧
    p = strings.Join ("static" :: ns) "/".
Proof.
  intros Hwell ([p' d] & -> & Hin)%list_elem_of_fmap.
  apply list_elem_of_In, filter_In in Hin as [Hin _]. cbn [fst].
  assert (Hp : p' ∈ map fst (nodes "static" (Base "static") s)).
  { apply list_elem_of_fmap. exists (p', d). split; [done|]. by apply list_elem_of_In. }
  rewrite nodes_paths in Hp by done.
  apply list_elem_of_fmap in Hp as (ns & -> & Hns).
  exists ns. split; [done|]. split; [|done].
  by apply (proj1 (Forall_forall _ _) (relPaths_good s Hwell)).
Qed.

(** The path of a copy mirrors the path of its source. *)
Lemma static_outPath (ns : list string) :
  Forall (λ n, goodName n = true) ns →
  Join ["build/static"; (Rel "static" (strings.Join ("static" :: ns) "/")).1] =
    strings.Join ("build" :: "static" :: ns) "/".
Proof.
  intros Hns. destruct ns as [|n ns]; [by vm_compute|].
  rewrite Join_cons_ne, Rel_static by (done || by apply cleanPath_Join).
  cbn [fst]. rewrite Join_cleanPath_str by (done || by apply cleanPath_Join).
  by rewrite (Join_cons_ne "build"), (Join_cons_ne "static").
Qed.


Lemma staticTree_wellNamed : wellNamed staticTree.
Proof.
  simpl. repeat split; try done; by apply (bool_decide_unpack _).
Qed.


(** ** Copying, whether or not it succeeds *)

Lemma visitedBeforeError_app (evs1 evs2 : list (string * visit)) :
  (Forall (λ ev, ∃ d, ev.2 = Visit d) evs1 ∧
   visitedBeforeError (evs1 ++ evs2) = allVisits evs1 ++ visitedBeforeError evs2) ∨
  visitedBeforeError (evs1 ++ evs2) = visitedBeforeError evs1.
Proof.
  induction evs1 as [|[path [d|d err]] evs1 IH].
  - left. by split.
  - cbn [app visitedBeforeError allVisits].
    destruct IH as [[Hall ->]| ->]; [left|by right].
    split; [|done]. constructor; [by eexists|done].
  - by right.
Qed.

(** The entries the older walk visits before its first call with an error
    are the first nodes of the tree. *)
Lemma visitedBeforeError_walkCalls (lstatErr : string → option error) (t : Tree) :
  ∀ path name,
    visitedBeforeError (walkCalls lstatErr path name t) `prefix_of`
      nodes path name t.
Proof.
  induction t as [|readErr dirs IH] using Tree_ind'; intros path name; [done|].
  cbn [walkCalls nodes]. destruct readErr as [e|]; [apply prefix_nil|].
  cbn [visitedBeforeError]. apply prefix_cons.
  induction IH as [|[name1 t1] rest Ht1 _ IHrest]; [done|].
  simpl in Ht1.
  destruct (lstatErr (Join [path; name1])) as [err|]; [apply prefix_nil|].
  destruct (visitedBeforeError_app (walkCalls lstatErr (Join [path; name1]) name1 t1)
    ((fix each (ds : list (string * Tree)) : list (string * visit) :=
        match ds with
        | [] => []
        | (name2, t2) :: rest0 =>
            match lstatErr (Join [path; name2]) with
            | Some err => [(Join [path; name2], VisitErr None err)]
            | None => walkCalls lstatErr (Join [path; name2]) name2 t2
            end ++ each rest0
        end) rest)) as [[Hall ->]| ->].
  - rewrite walkCalls_nodes by done. by apply prefix_app.
  - by apply prefix_app_r.
Qed.

Lemma prefix_filter_map {A B C : Type} (f : B → C) (h : A → B) (g : A → bool)
    (l1 l2 : list A) :
  l1 `prefix_of` l2 →
  map f (map h (List.filter g l1)) `prefix_of` map f (map h (List.filter g l2)).
Proof.
  intros [k ->]. rewrite List.filter_app, !map_app. by apply prefix_app_r.
Qed.

Section CopyOrder.
Context {world : Site.World} {assets : Site.Assets}.

Lemma staticFn_step (src dst path : string) (v : visit) (fs fs' : Site.Files)
    (e : option error) :
  Site.staticFn src dst path v fs = (fs', e) →
  ∃ extra, fs' = fs ++ extra ∧
    map fst extra `prefix_of`
      map (λ p, Join [dst; (Rel src p).1])
        (map fst (List.filter isPlainFile (visitedBeforeError [(path, v)]))) ∧
    (e = None →
     map fst extra =
       map (λ p, Join [dst; (Rel src p).1])
         (map fst (List.filter isPlainFile (allVisits [(path, v)]))) ∧
     ∃ d, v = Visit d).
Proof.
  destruct v as [d|d err]; cbn [allVisits visitedBeforeError List.filter].
  2:{ intros [= <- <-]. exists []. rewrite app_nil_r. split; [done|].
      split; [apply prefix_nil|done]. }
  unfold Site.staticFn, isPlainFile. cbn [fst snd].
  destruct (IsDir d); cbn [negb].
  { intros [= <- <-]. exists []. rewrite app_nil_r. split; [done|].
    split; [done|]. intros _. split; [done|]. by eexists. }
  unfold Site.copyFile.
  destruct (Site.os_Open path) as [err|rd].
  { intros [= <- <-]. exists []. rewrite app_nil_r. split; [done|].
    split; [apply prefix_nil|done]. }
  destruct (Site.os_Create _).
  { intros [= <- <-]. exists []. rewrite app_nil_r. split; [done|].
    split; [apply prefix_nil|done]. }
  destruct (Site.io_Copy _ rd) as [written err]. intros [= <- <-].
  eexists [_]. split; [done|]. split; [done|]. intros _. split; [done|]. by eexists.
Qed.

Lemma runEvents_staticFn_prefix (src dst : string) (evs : list (string * visit))
    (fs fs' : Site.Files) (e : option error) :
  runEvents (Site.staticFn src dst) evs fs = (fs', e) →
  ∃ created, fs' = fs ++ created ∧
    map fst created `prefix_of`
      map (λ p, Join [dst; (Rel src p).1])
        (map fst (List.filter isPlainFile (visitedBeforeError evs))).
Proof.
  revert fs. induction evs as [|[path v] evs IH]; intros fs.
  - intros [= <- <-]. exists []. by rewrite app_nil_r.
  - cbn [runEvents].
    destruct (Site.staticFn src dst path v fs) as [fs1 [err|]] eqn:Hstep.
    + intros [= <- <-]. apply staticFn_step in Hstep as (extra & -> & Hpre & _).
      exists extra. split; [done|].
      etrans; [exact Hpre|]. apply prefix_filter_map.
      destruct v as [d|d err']; [|done]. cbn [visitedBeforeError].
      apply prefix_cons, prefix_nil.
    + intros Hrest. apply IH in Hrest as (created & -> & Hpre).
      apply staticFn_step in Hstep as (extra & -> & _ & Hextra).
      destruct (Hextra eq_refl) as [Heq [d ->]].
      exists (extra ++ created). rewrite <- app_assoc. split; [done|].
      rewrite map_app, Heq. cbn [visitedBeforeError allVisits List.filter].
      destruct (isPlainFile (path, d)); cbn [map app]; [|done].
      by apply prefix_cons.
Qed.


End CopyOrder.

(** ** The program *)

Section Main.
Context {world : Site.World} {assets : Site.Assets}.

Lemma buildPages_grows (fs fs' : Site.Files) (e : option error) :
  Site.buildPages fs = (fs', e) → ∃ created, fs' = fs ++ created.
Proof.
  unfold Site.buildPages. rewrite WalkDir_events.
  intros (created & -> & _)%runEvents_buildFn_prefix. by exists created.
Qed.

Lemma copyStatic_grows (fs fs' : Site.Files) (e : option error) :
  Site.copyStatic fs = (fs', e) → ∃ created, fs' = fs ++ created.
Proof.
  unfold Site.copyStatic. destruct (Site.os_MkdirAll _).
  { intros [= <- <-]. exists []. by rewrite app_nil_r. }
  rewrite Walk_calls.
  intros (created & -> & _)%runEvents_staticFn_prefix. by exists created.
Qed.

Lemma fmt_Println_error (msg err : string) :
  Site.fmt_Println [msg; err] = msg +:+ " " +:+ err +:+ newline.
Proof. unfold Site.fmt_Println. cbn [strings.Join]. by rewrite !str_app_assoc. Qed.



End Main.


(** ** Output paths in general *)

(** X18: the output path of every path, clean or not, ends in [.html]. *)
Theorem outputPath_ends_in_html (mdPath : string) :
  strings.HasSuffix (Site.outputPath mdPath) ".html" = true.
Proof.
  unfold Site.outputPath.
  set (y := strings.TrimSuffix (Rel Site.ContentPath mdPath).1 ".md").
  cbn [Join]. change (isEmpty Site.BuildPath) with false. cbv iota.
  change (strings.Join [Site.BuildPath; y +:+ ".html"] "/")
    with (("build/" +:+ y) +:+ ".html").
  destruct (splitSlash_snoc ("build/" +:+ y)) as (init & l & _ & Hsplit).
  specialize (Hsplit ".html" eq_refl).
  unfold Clean. rewrite Hsplit.
  change (isEmpty (("build/" +:+ y) +:+ ".html")) with false.
  change (strings.HasPrefix (("build/" +:+ y) +:+ ".html") "/") with false.
  cbv iota zeta.
  rewrite fold_left_app. cbn [fold_left].
  rewrite cleanStep_kept by apply keptElem_html.
  cbn [rev]. rewrite Join_snoc_app.
  assert (Hne : ∀ x, isEmpty (x +:+ ".html") = false) by (by intros []).
  rewrite Hne. apply HasSuffix_app.
Qed.
